(* ===== verification/_CoqProject ===== *)
-Q . S2P
Prelude.v
Catalog.v
CartOps.v
CartSpec.v
Pending.v
React.v
Promotion.v
App.v
Runs.v
Bounds.v
Refinement.v
View.v
