(* ===== verification/Prelude.v ===== *)
(** * A verified model of the shopping-cart app (src/src/App.js)

    ** The program

    The repository's code is one React function component, [App] in
    src/src/App.js (167 lines). Its parts, and how they interact:
    - constants: PRODUCTS (four catalog entries), FREE_GIFT (id 99, price 0)
      and THRESHOLD (1000), lines 4-12;
    - state: three [useState] hooks, [cart] (a list of line items),
      [quantities] (a JS object, product id to pending "add" quantity) and
      [giftAdded], lines 15-17;
    - a derived value, [subtotal], recomputed on every render from [cart]
      (lines 19-21);
    - four handlers ([handleQuantityChange], [addToCart],
      [updateCartQuantity], [removeFromCart], lines 34-72). Each one queues
      functional updates through the setters;
    - one effect (lines 23-32), the free-gift rule, run after every commit
      that changes [subtotal] or [cart]. It queues updates itself, so React
      re-renders and runs it again;
    - the JSX (lines 74-165), whose buttons are the only way events reach
      the handlers, and which shows a progress bar, a message, a banner and
      the cart rows.

    ** The development, file by file (library root: this directory)

    - Prelude.v : this header; the [cart_scope] notation [o ||ᶻ d] for
      JavaScript's [||] on a number (a missing key and [0] are falsy);
      [sumZ], the reference right-fold sum; the tactic [zbool], which turns
      [Z.eqb]/[Z.ltb]/[Z.leb] into case splits; the [cart] hint database;
      generic lemmas on lists, filters and sums.
    - Catalog.v (Module Catalog) : the records [product] and [item] (a
      spread product plus [quantity], via a coercion), PRODUCTS, FREE_GIFT,
      THRESHOLD, the gift line and the id tests.
    - CartOps.v (Module CartOps) : every function passed to [setCart]:
      [addToCart_update] (43-54), [updateCartQuantity_update] (58-66),
      [removeFromCart_update] (71), and the effect's [addGift_update] (26)
      and [removeGift_update] (29). Also [subtotal] (19-21) and [hasGift]
      (24). The cart invariant [wf_cart] has distinct ids, and every line
      is the exact gift line or a catalog product with quantity >= 1. Each
      updater is shown to preserve it and its effect on gift presence and
      subtotal is computed. Sections with [Context] carry the shared
      hypotheses.
    - CartSpec.v (Module CartSpec) : the abstract cart, a [gmap] from id to
      quantity ([abs]). The specification operations are insert, alter and
      delete, and [spec_subtotal] sums over the catalog. Every updater
      refines its operation, and [subtotal] equals [spec_subtotal] of the
      abstraction.
    - Pending.v (Module Pending) : [quantities] as a [gmap Z Z], the read
      [quantities[id] || 1] ([pending]) and [handleQuantityChange]'s
      updater (35-38).
    - React.v (Module React) : the component [state] record. Queued setter
      calls are values of [update]. [commit] applies them in order (the
      React contract for functional updates), with notation [s ⊲ us].
      [touches_cart] says whether a [setCart] was queued: every updater of
      App.js allocates a new array, so the effect's dependency changes.
    - Promotion.v (Module Promotion) : the effect as the list of updates it
      queues ([effect]), the re-run loop with fuel ([settle]), one run
      committed ([promote]), the rule [gift_consistent], and the interface
      [GiftNeutral]: a class stating what a handler's cart updater promises
      the effect (keeps carts well formed, does not add or remove the gift).
      The effect's theorems are proved against the class.
    - App.v (Module App) : [event] (one per kind of onClick), the handlers
      as the updates they queue, [dispatch] (handler, commit, then the
      effect loop if the cart changed), [buttons] (the events the JSX
      renders in a state) and [reachable] (inductive, from the first
      render through clicks on rendered buttons). The [GiftNeutral]
      instances for the three cart updaters, the invariant [app_inv] by
      rule induction, [run] for click sequences, and the spec's five
      scenarios evaluated by [vm_compute].
    - Runs.v (Module Runs) : click sequences. [after] is the state a click
      leads to ([dispatch] never fails), [called] the states reached by
      handler calls with the argument shapes spec 4.2 promises (rendered
      or not), and [dispatch_sync] the synchronous design spec section 9
      recommends (the promotion check run once, right after the handler's
      updates).
    - Bounds.v (Module Bounds) : the growth of the numbers with the number
      of clicks ([bounded]), and the JavaScript safe-integer bound.
    - Refinement.v (Module Refinement) : the abstract machine
      [spec_dispatch] on (abstract cart, pending quantities, flag) and the
      simulation theorem.
    - View.v (Module View) : the page as data ([render], lines 74-165): the
      product cards with their pending quantity, the progress bar width
      (exact in [Q]), the threshold message, the banner, and the cart
      section (the empty-cart message, or the rows and the total).

    ** What the theorems show (C1-C27)

    - Invariants of every reachable state (C1, C2, C15, C20): distinct line
      ids, quantities >= 1, the gift line exact (quantity 1) and present iff
      subtotal >= THRESHOLD, the flag and the banner in agreement, pending
      quantities >= 1 and keyed by catalog ids only.
    - The promotion rule (C3-C5): one run establishes it from any state;
      it is idempotent; the loop settles after one round, so it cannot
      loop.
    - Handler behaviour (C6-C10, C12): "-" at quantity 1 is a no-op and
      the targeted line is never removed (C6, C7: the code clamps at 1,
      unlike the spec's scenario 3); removing the gift's id is a no-op
      (spec P5); adding never duplicates an id; adding raises the subtotal
      by price x pending; the pending-quantity buttons set the shown
      quantity to max(shown + delta, 1) and touch nothing else.
    - Refinement and equivalence (C11, C23, C24): every click from a
      reachable state is simulated by the abstract map machine; on carts
      with distinct ids, [addToCart]'s find-then-map updater equals a
      single-pass [upsert]; React's commit-then-effect gives the same
      state as the synchronous design of spec section 9, from every state
      satisfying the invariant and for any handler call.
    - Display (C13-C16, C25, C26): the progress width lies in [0, 100]
      and is 100 iff the threshold is reached; the "Add X more" amount lies
      in (0, THRESHOLD]; the total shown is the sum of the rows shown; an
      empty cart shows "Add 1000 more", 0% and no banner.
    - Runs (C17-C19): from every reachable state the gift can be earned
      (two laptops) and the cart emptied (Remove on every line); any
      sequence of handler calls with valid argument shapes keeps the
      invariant.
    - Bounds (C21, C22): after n clicks, pending quantities are at most
      n + 1, line quantities at most (n + 1)^2 and the subtotal at most
      1050 (n + 1)^2; below 2^20 clicks every number is below 2^53.
    - Order (C27): a click never reorders the product rows; "Add to
      Cart" appends a new product at the end, "Remove" drops its row, and
      the gift line coming or going moves no product row (the gift itself
      is appended when the threshold is crossed, so products added later
      come after it).
    - Two evaluated examples back findings rather than state properties:
      [App.handler_commit_breaks_rule] (the render a handler commits before
      the effect runs has subtotal 1000 and no gift: the rule holds of
      settled states only) and [Runs.unguarded_calls_corrupt_gift] (called
      directly, [addToCart(FREE_GIFT)] and [updateCartQuantity(99, 1)]
      raise the gift line to quantity 2: only the page guards them).

    ** Fuel and bounds

    [render_fuel] is 50, React's limit on nested updates before "Maximum
    update depth exceeded". [settle_fuel_spec] shows that one unit is
    enough: after one run of the effect, the next run queues nothing.
    Prices and quantities are unbounded integers ([Z]). JavaScript numbers
    are doubles, exact on integers below 2^53: Bounds.v shows that every
    quantity, line total and subtotal stays below it for any run of fewer
    than 2^20 clicks (about a million), so the model's [Z] arithmetic is
    the code's. The progress width is the exact rational
    min(subtotal / 1000 * 100, 100), not its IEEE rounding.

    ** Plan for further work

    - React's batching of several clicks into one render (only possible
      under concurrent rendering), as an interleaving of [update] queues.

    ** Not modelled

    React's scheduler (concurrent rendering, StrictMode's double effects,
    when the browser paints), the markup, CSS class names, emoji text and
    React keys of the JSX, and App.css. The page is modelled as the data
    it shows ([View.render]), not as DOM. *)

From stdpp Require Export gmap strings list.
From Stdlib Require Export ZArith Lia.

Open Scope Z_scope.

Declare Scope cart_scope.
Delimit Scope cart_scope with cart.

(** ** JavaScript helpers *)

(** [o || d] on a number-valued property read: JavaScript's [||] returns
    the right operand when the left one is falsy; for a property of type
    number that is [undefined] (a missing key) or [0]. *)
Definition js_or (o : option Z) (d : Z) : Z :=
  match o with
  | Some v => if Z.eqb v 0 then d else v
  | None => d
  end.

Notation "o '||ᶻ' d" := (js_or o d) (at level 50, left associativity) : cart_scope.

Open Scope cart_scope.

Create HintDb cart discriminated.

(** ** Tactics *)

(** Turn the boolean comparisons on [Z] that the model uses into case
    splits with their propositional meaning. *)
Ltac zbool :=
  repeat match goal with
  | |- context [Z.eqb ?a ?b] => destruct (Z.eqb_spec a b)
  | |- context [Z.ltb ?a ?b] => destruct (Z.ltb_spec a b)
  | |- context [Z.leb ?a ?b] => destruct (Z.leb_spec a b)
  | H : context [Z.eqb ?a ?b] |- _ => destruct (Z.eqb_spec a b)
  | H : context [Z.ltb ?a ?b] |- _ => destruct (Z.ltb_spec a b)
  | H : context [Z.leb ?a ?b] |- _ => destruct (Z.leb_spec a b)
  end.

(** ** Generic lemmas *)

(** The sum of [f] over a list, folded from the right: the reference
    against which the code's left folds ([Array.prototype.reduce]) are
    proved equal. *)
Fixpoint sumZ {A} (f : A → Z) (l : list A) : Z :=
  match l with
  | [] => 0
  | x :: l' => f x + sumZ f l'
  end.

(** [Array.prototype.reduce] with an additive accumulator is a sum. *)
Lemma fold_left_add_sum {A} (f : A → Z) (l : list A) (a : Z) :
  fold_left (λ acc x, acc + f x) l a = a + sumZ f l.
Proof.
  revert a. induction l as [|x l IH]; intros a; simpl; [lia|].
  rewrite IH. lia.
Qed.

Lemma sumZ_app {A} (f : A → Z) (l k : list A) :
  sumZ f (l ++ k) = sumZ f l + sumZ f k.
Proof. induction l; simpl; lia. Qed.

Lemma sumZ_map {A B} (f : B → Z) (g : A → B) (l : list A) :
  sumZ f (map g l) = sumZ (λ x, f (g x)) l.
Proof. induction l; simpl; lia. Qed.

Lemma sumZ_ext {A} (f g : A → Z) (l : list A) :
  (∀ x, x ∈ l → f x = g x) → sumZ f l = sumZ g l.
Proof. induction l; simpl; intros H; [done|]. rewrite H, IHl by set_solver. done. Qed.

Lemma sumZ_nonneg {A} (f : A → Z) (l : list A) :
  Forall (λ x, 0 ≤ f x) l → 0 ≤ sumZ f l.
Proof. induction 1; simpl; lia. Qed.

Lemma sumZ_le {A} (f g : A → Z) (l : list A) :
  (∀ x, x ∈ l → f x ≤ g x) → sumZ f l ≤ sumZ g l.
Proof.
  induction l as [|x l IH]; simpl; intros H; [done|].
  assert (f x ≤ g x) by (apply H; left). assert (sumZ f l ≤ sumZ g l) by (apply IH; set_solver). lia.
Qed.

Lemma NoDup_map_filter {A B} (f : A → B) (p : A → bool) (l : list A) :
  NoDup (map f l) → NoDup (map f (List.filter p l)).
Proof.
  induction l as [|x l IH]; simpl; [done|].
  rewrite NoDup_cons. intros [Hx Hl]. destruct (p x); simpl; [|auto].
  rewrite NoDup_cons. split; [|auto].
  intros Hin. apply Hx. apply list_elem_of_In in Hin. apply list_elem_of_In.
  apply in_map_iff in Hin as (y & <- & Hy). apply in_map.
  apply filter_In in Hy. tauto.
Qed.

Lemma Forall_filter_bool {A} (P : A → Prop) (p : A → bool) (l : list A) :
  Forall P l → Forall P (List.filter p l).
Proof. induction 1; simpl; [done|]. destruct (p x); auto. Qed.

Lemma existsb_app {A} (p : A → bool) (l k : list A) :
  existsb p (l ++ k) = existsb p l || existsb p k.
Proof. induction l; simpl; [done|]. by rewrite IHl, orb_assoc. Qed.

Lemma filter_all_true {A} (p : A → bool) (l : list A) :
  Forall (λ x, p x = true) l → List.filter p l = l.
Proof. induction 1 as [|x l Hx _ IH]; simpl; [done|]. by rewrite Hx, IH. Qed.

Lemma elem_of_map_filter {A B} (f : A → B) (p : A → bool) (l : list A) (y : B) :
  y ∈ map f (List.filter p l) ↔ ∃ x, x ∈ l ∧ p x = true ∧ y = f x.
Proof.
  rewrite list_elem_of_In, in_map_iff. setoid_rewrite list_elem_of_In.
  setoid_rewrite filter_In. naive_solver.
Qed.

Lemma NoDup_snoc {A} (l : list A) (x : A) : NoDup l → x ∉ l → NoDup (l ++ [x]).
Proof.
  intros Hl Hx. apply NoDup_app. split; [done|]. split; [set_solver|]. apply NoDup_singleton.
Qed.

Lemma filter_comm {A} (p q : A → bool) (l : list A) :
  List.filter p (List.filter q l) = List.filter q (List.filter p l).
Proof. induction l as [|x l IH]; simpl; [done|]. destruct (p x) eqn:?, (q x) eqn:?; simpl; rewrite ?Heqb, ?Heqb0, IH; congruence. Qed.

Lemma filter_idem {A} (p : A → bool) (l : list A) :
  List.filter p (List.filter p l) = List.filter p l.
Proof. induction l as [|x l IH]; simpl; [done|]. destruct (p x) eqn:E; simpl; rewrite ?E; congruence. Qed.

#[export] Hint Resolve NoDup_map_filter Forall_filter_bool : cart.
