(* ===== verification/Catalog.v ===== *)
(** Catalog.v: the constants of src/src/App.js (lines 4-12), the product
    record the catalog entries have and the cart line item, which the code
    builds by spreading a product and adding a [quantity] field
    ([{ ...product, quantity }]). *)

From S2P Require Import Prelude.

Module Catalog.

(** A product: [{ id, name, price }]. *)
Record product := mkProduct { id : Z; name : string; price : Z }.

(** A cart line item: the product's fields, spread, plus [quantity].
    The coercion lets [id it], [price it] read the spread fields. *)
Record item := mkItem { base :> product; quantity : Z }.

#[export] Instance product_eq_dec : EqDecision product.
Proof. intros [i n p] [i' n' p']; unfold Decision; decide equality; apply decide, _. Defined.

#[export] Instance item_eq_dec : EqDecision item.
Proof. intros [b q] [b' q']; unfold Decision; decide equality; apply decide, _. Defined.

Definition PRODUCTS : list product :=
  [ mkProduct 1 "Laptop" 500;
    mkProduct 2 "Smartphone" 300;
    mkProduct 3 "Headphones" 100;
    mkProduct 4 "Smartwatch" 150 ].

Definition FREE_GIFT : product := mkProduct 99 "Wireless Mouse" 0.

Definition THRESHOLD : Z := 1000.

(** The gift line the effect appends: [{ ...FREE_GIFT, quantity: 1 }]. *)
Definition gift_line : item := mkItem FREE_GIFT 1.

(** [item.id !== FREE_GIFT.id], the test the code repeats in [subtotal],
    the effect and the cart rendering. *)
Definition not_gift (it : item) : bool := negb (Z.eqb (id it) (id FREE_GIFT)).

Definition is_gift (it : item) : bool := Z.eqb (id it) (id FREE_GIFT).

(** ** Facts about the constants *)

Lemma PRODUCTS_ids_nodup : NoDup (map id PRODUCTS).
Proof. apply (bool_decide_unpack _). vm_compute. reflexivity. Qed.

(** A property of every catalog entry, checked entry by entry. *)
Ltac by_catalog :=
  intros ?p Hp;
  revert p Hp; apply (proj1 (Forall_forall _ _)); repeat constructor; simpl; lia.

Lemma PRODUCTS_not_gift p : p ∈ PRODUCTS → id p ≠ id FREE_GIFT.
Proof. revert p. by_catalog. Qed.

Lemma PRODUCTS_price_pos p : p ∈ PRODUCTS → 0 < price p.
Proof. revert p. by_catalog. Qed.

Lemma PRODUCTS_price_le p : p ∈ PRODUCTS → price p ≤ 500.
Proof. revert p. by_catalog. Qed.

Lemma PRODUCTS_price_nonneg p : p ∈ PRODUCTS → 0 ≤ price p.
Proof. intros Hp. apply PRODUCTS_price_pos in Hp. lia. Qed.

(** Catalog ids identify catalog entries. *)
Lemma PRODUCTS_id_inj p q : p ∈ PRODUCTS → q ∈ PRODUCTS → id p = id q → p = q.
Proof.
  intros Hp Hq.
  repeat (apply elem_of_cons in Hp as [->|Hp]; [|]); [..|set_solver];
  repeat (apply elem_of_cons in Hq as [->|Hq]; [|]); try set_solver;
  simpl; intros; first [done | lia].
Qed.

End Catalog.

Export Catalog.

#[export] Hint Resolve PRODUCTS_not_gift PRODUCTS_price_nonneg : cart.
