(* ===== verification/CartOps.v ===== *)
(** CartOps.v: the functions App.js passes to [setCart] (the cart
    updaters of [addToCart], [updateCartQuantity], [removeFromCart] and of
    the promotion effect), the values derived from the cart on every render
    ([subtotal], and the effect's [hasGift]), the well-formedness invariant
    of a cart and what each updater does to it; [upsert], a single-pass
    reference the updater of [addToCart] is equivalent to. *)

From S2P Require Import Prelude Catalog.

Module CartOps.

Implicit Types (c prevCart : list item) (it : item) (p : product).

(** ** Derived values *)

(** [item.price * item.quantity], a line's value. *)
Definition line_total it : Z := price it * quantity it.

(** App.js 19-21: [cart.filter(item => item.id !== FREE_GIFT.id)
    .reduce((sum, item) => sum + item.price * item.quantity, 0)]. *)
Definition subtotal c : Z :=
  fold_left (λ sum it, sum + price it * quantity it) (List.filter not_gift c) 0.

(** App.js 24: [cart.some((item) => item.id === FREE_GIFT.id)]. *)
Definition hasGift c : bool := existsb is_gift c.

Definition ids c : list Z := map (λ it : item, id it) c.

(** ** The cart updaters *)

(** App.js 43-54, the updater [addToCart] passes to [setCart], with
    [quantity] the pending quantity read before (line 42). *)
Definition addToCart_update (quantity : Z) p prevCart : list item :=
  match List.find (λ it, Z.eqb (id it) (id p)) prevCart with
  | Some _ =>
      map (λ it, if Z.eqb (id it) (id p)
                 then mkItem (base it) (it.(Catalog.quantity) + quantity)
                 else it) prevCart
  | None => prevCart ++ [mkItem p quantity]
  end.

(** A single-pass reference for the updater of [addToCart]: walk the
    cart, add [quantity] to the first line with the product's id, append a
    new line at the end if there is none. *)
Fixpoint upsert (quantity : Z) p c : list item :=
  match c with
  | [] => [mkItem p quantity]
  | it :: c' =>
      if Z.eqb (id it) (id p) then mkItem (base it) (it.(Catalog.quantity) + quantity) :: c'
      else it :: upsert quantity p c'
  end.

(** App.js 58-66: [prevCart.map(item => item.id === productId ? { ...item,
    quantity: Math.max(item.quantity + delta, 1) } : item)
    .filter(item => item.quantity > 0)]. *)
Definition updateCartQuantity_update (productId delta : Z) prevCart : list item :=
  List.filter (λ it, 0 <? quantity it)
    (map (λ it, if Z.eqb (id it) productId
                then mkItem (base it) (Z.max (quantity it + delta) 1)
                else it) prevCart).

(** App.js 71: [prevCart.filter((item) => item.id !== productId)]. *)
Definition removeFromCart_update (productId : Z) prevCart : list item :=
  List.filter (λ it, negb (Z.eqb (id it) productId)) prevCart.

(** App.js 26: [prev => [...prev, { ...FREE_GIFT, quantity: 1 }]]. *)
Definition addGift_update prevCart : list item := prevCart ++ [gift_line].

(** App.js 29: [prev => prev.filter((item) => item.id !== FREE_GIFT.id)]. *)
Definition removeGift_update prevCart : list item := List.filter not_gift prevCart.

(** ** Well-formed carts *)

(** A line is the gift line exactly as the effect builds it, or a catalog
    product with a positive quantity. *)
Definition line_ok it : Prop :=
  it = gift_line ∨ (base it ∈ PRODUCTS ∧ 1 ≤ quantity it).

(** At most one line per id (spec I1; React keys the rows by [item.id]),
    and every line well formed (I3, I5). *)
Definition wf_cart c : Prop := NoDup (ids c) ∧ Forall line_ok c.

(** ** The derived values *)

(** The code's [reduce] over the filtered cart is the sum of the line
    totals of the non-gift lines. *)
Lemma subtotal_spec c : subtotal c = sumZ line_total (List.filter not_gift c).
Proof. unfold subtotal. rewrite (fold_left_add_sum line_total). lia. Qed.

Lemma subtotal_nil : subtotal [] = 0.
Proof. reflexivity. Qed.

Lemma subtotal_cons it c :
  subtotal (it :: c) = (if not_gift it then line_total it else 0) + subtotal c.
Proof. rewrite !subtotal_spec. simpl. destruct (not_gift it); simpl; lia. Qed.

Lemma subtotal_app c k : subtotal (c ++ k) = subtotal c + subtotal k.
Proof. rewrite !subtotal_spec, List.filter_app. apply sumZ_app. Qed.

Lemma hasGift_cons it c : hasGift (it :: c) = is_gift it || hasGift c.
Proof. reflexivity. Qed.

Lemma hasGift_app c k : hasGift (c ++ k) = hasGift c || hasGift k.
Proof. apply existsb_app. Qed.

Lemma ids_app c k : ids (c ++ k) = ids c ++ ids k.
Proof. apply map_app. Qed.

(** An item whose id is not the gift's. *)
Lemma not_gift_true it : id it ≠ id FREE_GIFT → not_gift it = true.
Proof. unfold not_gift. zbool; naive_solver. Qed.

Lemma is_gift_false it : id it ≠ id FREE_GIFT → is_gift it = false.
Proof. unfold is_gift. zbool; naive_solver. Qed.

Lemma line_ok_gift it : line_ok it → is_gift it = true → it = gift_line.
Proof.
  intros [->|[Hp _]] Hg; [done|]. apply PRODUCTS_not_gift in Hp.
  unfold is_gift in Hg. zbool; [done|]. discriminate.
Qed.

Lemma line_ok_price it : line_ok it → 0 ≤ price it ∧ 0 ≤ quantity it.
Proof. intros [->|[Hp Hq]]; [simpl; lia|]. apply PRODUCTS_price_nonneg in Hp. lia. Qed.

(** A cart whose lines are well formed has a non-negative subtotal. *)
Lemma subtotal_nonneg c : Forall line_ok c → 0 ≤ subtotal c.
Proof.
  intros Hc. rewrite subtotal_spec. apply sumZ_nonneg, Forall_filter_bool.
  eapply Forall_impl; [exact Hc|]. intros it Hit.
  apply line_ok_price in Hit. unfold line_total. nia.
Qed.

(** On well-formed lines the filter of the gift changes nothing: the gift
    line is worth 0. *)
Lemma subtotal_all_lines c : Forall line_ok c → subtotal c = sumZ line_total c.
Proof.
  induction 1 as [|it c Hit Hc IH]; [done|]. rewrite subtotal_cons, IH. simpl.
  destruct (not_gift it) eqn:E; [done|].
  rewrite (line_ok_gift it Hit) by (unfold not_gift in E; unfold is_gift; by destruct (Z.eqb _ _)).
  done.
Qed.

(** The derived values do not depend on the order of the lines. *)
#[export] Instance subtotal_perm : Proper ((≡ₚ) ==> (=)) subtotal.
Proof. induction 1; rewrite ?subtotal_cons; lia. Qed.

#[export] Instance hasGift_perm : Proper ((≡ₚ) ==> (=)) hasGift.
Proof.
  induction 1; rewrite ?hasGift_cons; try congruence.
  by rewrite !orb_assoc, (orb_comm (is_gift x)).
Qed.

(** ** Lookups by id *)

Lemma find_id_None c x :
  List.find (λ it, Z.eqb (id it) x) c = None ↔ x ∉ ids c.
Proof.
  induction c as [|it c IH]; simpl; [set_solver|].
  rewrite elem_of_cons. zbool; [naive_solver|]. rewrite IH. naive_solver.
Qed.

Lemma elem_of_ids (it : item) c : it ∈ c → id it ∈ ids c.
Proof. intros Hin. apply list_elem_of_In, (in_map (λ i : item, id i)), list_elem_of_In, Hin. Qed.

Lemma ids_map_same (f : item → item) c :
  (∀ it, id (f it) = id it) → ids (map f c) = ids c.
Proof. intros Hf. unfold ids. rewrite map_map. apply map_ext. auto. Qed.

Lemma hasGift_map_same (f : item → item) c :
  (∀ it, id (f it) = id it) → hasGift (map f c) = hasGift c.
Proof.
  intros Hf. induction c as [|it c IH]; simpl; [done|].
  rewrite IH. unfold is_gift. by rewrite Hf.
Qed.

(** Updating the line with id [x] leaves a cart without such a line
    unchanged. *)
Lemma map_update_absent x (g : item → item) c :
  x ∉ ids c → map (λ it, if Z.eqb (id it) x then g it else it) c = c.
Proof.
  induction c as [|it c IH]; simpl; [done|]. rewrite elem_of_cons.
  intros Hx. zbool; [naive_solver|]. rewrite IH; naive_solver.
Qed.

Lemma wf_cart_cons it c :
  wf_cart (it :: c) ↔ (id it ∉ ids c) ∧ line_ok it ∧ wf_cart c.
Proof. unfold wf_cart. simpl. rewrite NoDup_cons, Forall_cons. naive_solver. Qed.

(** A catalog product's line in a well-formed cart carries that product. *)
Lemma line_of_product it p :
  line_ok it → p ∈ PRODUCTS → id it = id p → base it = p ∧ 1 ≤ quantity it.
Proof.
  intros [->|[Hb Hq]] Hp Hid.
  - apply PRODUCTS_not_gift in Hp. simpl in *. lia.
  - split; [|done]. by apply PRODUCTS_id_inj.
Qed.

(** ** addToCart *)

Section addToCart.
Context (quantity : Z) (p : product).
Context (Hp : p ∈ PRODUCTS).

Let bump it : item :=
  if Z.eqb (id it) (id p) then mkItem (base it) (it.(Catalog.quantity) + quantity) else it.

Lemma addToCart_update_cases c :
  (id p ∈ ids c ∧ addToCart_update quantity p c = map bump c) ∨
  ((id p ∉ ids c) ∧ addToCart_update quantity p c = c ++ [mkItem p quantity]).
Proof.
  unfold addToCart_update. destruct (List.find _ c) eqn:Hf.
  - left. split; [|done]. destruct (decide (id p ∈ ids c)) as [|Hn]; [done|].
    apply find_id_None in Hn. congruence.
  - right. split; [by apply find_id_None|done].
Qed.

Lemma bump_ok c : 1 ≤ quantity → Forall line_ok c → Forall line_ok (map bump c).
Proof.
  intros Hq Hc. apply Forall_map. eapply Forall_impl; [exact Hc|].
  intros it Hit. subst bump. simpl. zbool; [|done].
  destruct (line_of_product it p) as [Hb Hi]; auto.
  right. simpl. rewrite Hb. split; [done|lia].
Qed.

Lemma subtotal_bump c :
  wf_cart c → id p ∈ ids c → subtotal (map bump c) = subtotal c + price p * quantity.
Proof.
  induction c as [|it c IH]; simpl; [set_solver|].
  rewrite wf_cart_cons, elem_of_cons. intros (Hnin & Hit & Hc) Hin.
  rewrite !subtotal_cons. subst bump. simpl. zbool.
  - rewrite map_update_absent by congruence.
    destruct (line_of_product it p) as [Hb _]; auto.
    rewrite !not_gift_true by (simpl; rewrite ?Hb; auto with cart).
    unfold line_total. simpl. rewrite Hb. lia.
  - rewrite IH by naive_solver. lia.
Qed.

(** The ids after the update: unchanged when the product has a line,
    the product's id appended otherwise. *)
Lemma ids_addToCart_update c :
  ids (addToCart_update quantity p c) =
    if bool_decide (id p ∈ ids c) then ids c else ids c ++ [id p].
Proof.
  destruct (addToCart_update_cases c) as [[Hin ->]|[Hnin ->]].
  - rewrite bool_decide_eq_true_2 by done. apply ids_map_same.
    intros it. subst bump. simpl. by destruct (Z.eqb _ _).
  - rewrite bool_decide_eq_false_2 by done. by rewrite ids_app.
Qed.

Lemma addToCart_update_wf c :
  1 ≤ quantity → wf_cart c → wf_cart (addToCart_update quantity p c).
Proof.
  intros Hq [Hn Hc]. split.
  - rewrite ids_addToCart_update. case_bool_decide; [done|]. by apply NoDup_snoc.
  - destruct (addToCart_update_cases c) as [[_ ->]|[_ ->]]; [by apply bump_ok|].
    apply Forall_app. split; [done|]. apply Forall_singleton. right. simpl. auto.
Qed.

Lemma addToCart_update_hasGift c : hasGift (addToCart_update quantity p c) = hasGift c.
Proof.
  destruct (addToCart_update_cases c) as [[_ ->]|[_ ->]].
  - apply hasGift_map_same. intros it. subst bump. simpl. by destruct (Z.eqb _ _).
  - rewrite hasGift_app. simpl. rewrite is_gift_false by auto with cart.
    by rewrite orb_false_r.
Qed.

Lemma addToCart_update_subtotal c :
  wf_cart c → subtotal (addToCart_update quantity p c) = subtotal c + price p * quantity.
Proof.
  intros Hc. destruct (addToCart_update_cases c) as [[Hin ->]|[_ ->]].
  - by apply subtotal_bump.
  - rewrite subtotal_app, subtotal_cons, subtotal_nil.
    rewrite not_gift_true by auto with cart. unfold line_total. simpl. lia.
Qed.

End addToCart.

(** C9. Spec P2 for [addToCart]: adding never creates a second line with
    the same id, whatever the product and the quantity: an existing line
    is incremented, a new one is appended only when the id is absent. *)
Theorem addToCart_update_nodup (quantity : Z) p c :
  NoDup (ids c) → NoDup (ids (addToCart_update quantity p c)).
Proof.
  intros Hn. rewrite (ids_addToCart_update quantity p c). case_bool_decide; [done|]. by apply NoDup_snoc.
Qed.

(** Witness of C9: adding two more laptops to a cart holding one. *)
Lemma addToCart_update_nodup_witness :
  NoDup (ids [mkItem (mkProduct 1 "Laptop" 500) 1]) ∧
  NoDup (ids (addToCart_update 2 (mkProduct 1 "Laptop" 500) [mkItem (mkProduct 1 "Laptop" 500) 1])).
Proof.
  assert (H : NoDup (ids [mkItem (mkProduct 1 "Laptop" 500) 1])) by (simpl; apply NoDup_singleton).
  split; [exact H|]. apply (addToCart_update_nodup 2 _ _ H).
Defined.

Lemma addToCart_update_cons_ne (quantity : Z) p it c :
  id it ≠ id p → addToCart_update quantity p (it :: c) = it :: addToCart_update quantity p c.
Proof.
  intros Hne. unfold addToCart_update. simpl. rewrite (proj2 (Z.eqb_neq _ _) Hne).
  by destruct (List.find _ c).
Qed.

(** C23. Equivalence with the single-pass reference: on a cart without
    duplicate ids, the code's [find] followed by a [map] over the whole
    cart, or by an append, is [upsert]. *)
Theorem addToCart_update_upsert (quantity : Z) p c :
  NoDup (ids c) → addToCart_update quantity p c = upsert quantity p c.
Proof.
  induction c as [|it c IH]; [done|]. unfold ids. simpl. rewrite NoDup_cons.
  intros [Hnin Hn]. destruct (Z.eqb_spec (id it) (id p)) as [He|Hne].
  - unfold addToCart_update. simpl. rewrite (proj2 (Z.eqb_eq _ _) He). simpl.
    f_equal. apply map_update_absent. by rewrite <- He.
  - rewrite addToCart_update_cons_ne by done. f_equal. by apply IH.
Qed.

Lemma addToCart_update_upsert_witness :
  NoDup (ids [mkItem (mkProduct 1 "Laptop" 500) 1; mkItem (mkProduct 2 "Smartphone" 300) 1]) ∧
  addToCart_update 2 (mkProduct 2 "Smartphone" 300)
    [mkItem (mkProduct 1 "Laptop" 500) 1; mkItem (mkProduct 2 "Smartphone" 300) 1]
  = upsert 2 (mkProduct 2 "Smartphone" 300)
    [mkItem (mkProduct 1 "Laptop" 500) 1; mkItem (mkProduct 2 "Smartphone" 300) 1].
Proof.
  assert (H : NoDup (ids [mkItem (mkProduct 1 "Laptop" 500) 1; mkItem (mkProduct 2 "Smartphone" 300) 1]))
    by (apply (bool_decide_unpack _); vm_compute; reflexivity).
  split; [exact H|]. apply (addToCart_update_upsert 2 _ _ H).
Defined.

(** ** updateCartQuantity *)

Section updateCartQuantity.
Context (productId delta : Z).

Let adjust it : item :=
  if Z.eqb (id it) productId then mkItem (base it) (Z.max (quantity it + delta) 1) else it.

Lemma adjust_pos c :
  Forall (λ it, 0 < quantity it) c → Forall (λ it, 0 < quantity it) (map adjust c).
Proof.
  intros Hc. apply Forall_map. eapply Forall_impl; [exact Hc|].
  intros it Hit. subst adjust. simpl in *. zbool; simpl; lia.
Qed.

(** On a cart of positive quantities the code's [.filter(item =>
    item.quantity > 0)] keeps every line: the update is the [map] alone. *)
Lemma updateCartQuantity_update_map c :
  Forall (λ it, 0 < quantity it) c → updateCartQuantity_update productId delta c = map adjust c.
Proof.
  intros Hc. apply filter_all_true. eapply Forall_impl; [by apply adjust_pos|].
  intros it Hit. simpl in *. zbool; lia.
Qed.

Lemma wf_cart_pos c : wf_cart c → Forall (λ it, 0 < quantity it) c.
Proof.
  intros [_ Hc]. eapply Forall_impl; [exact Hc|].
  intros it [->|[_ ?]]; simpl; lia.
Qed.

Lemma ids_adjust c : ids (map adjust c) = ids c.
Proof. apply ids_map_same. intros it. subst adjust. simpl. by destruct (Z.eqb _ _). Qed.

Lemma updateCartQuantity_update_wf c :
  productId ≠ id FREE_GIFT → wf_cart c → wf_cart (updateCartQuantity_update productId delta c).
Proof.
  intros Hpid Hwf. rewrite updateCartQuantity_update_map by by apply wf_cart_pos.
  destruct Hwf as [Hn Hc]. split; [by rewrite ids_adjust|].
  apply Forall_map. eapply Forall_impl; [exact Hc|]. intros it Hit.
  subst adjust. simpl. zbool; [|done].
  destruct Hit as [->|[Hb _]]; [simpl in *; lia|]. right. simpl. split; [done|lia].
Qed.

Lemma updateCartQuantity_update_hasGift c :
  wf_cart c → hasGift (updateCartQuantity_update productId delta c) = hasGift c.
Proof.
  intros Hwf. rewrite updateCartQuantity_update_map by by apply wf_cart_pos.
  apply hasGift_map_same. intros it. subst adjust. simpl. by destruct (Z.eqb _ _).
Qed.

(** C7. The line the update targets is never removed, whatever [delta]
    and whatever the cart: [Math.max(..., 1)] keeps its quantity positive,
    so the [.filter(item => item.quantity > 0)] after it keeps it. *)
Theorem updateCartQuantity_update_keeps_target c :
  productId ∈ ids c → productId ∈ ids (updateCartQuantity_update productId delta c).
Proof.
  induction c as [|it c IH]; simpl; [set_solver|]. rewrite elem_of_cons. intros Hin.
  unfold updateCartQuantity_update in *. simpl.
  destruct (Z.eqb_spec (id it) productId) as [E|E]; simpl.
  - replace (0 <? _) with true by (symmetry; apply Z.ltb_lt; simpl; lia). simpl. set_solver.
  - destruct (0 <? quantity it); simpl; [apply elem_of_cons; right|]; naive_solver.
Qed.

(** A non-positive [delta] on a line of quantity 1 changes nothing: the
    clamp gives 1 back. *)
Lemma updateCartQuantity_update_at_one c :
  wf_cart c → delta ≤ 0 → (∀ it, it ∈ c → id it = productId → quantity it = 1) →
  updateCartQuantity_update productId delta c = c.
Proof.
  intros Hwf Hd Hone. rewrite updateCartQuantity_update_map by by apply wf_cart_pos.
  rewrite <- (map_id c) at 2. apply map_ext_in. intros it Hit%list_elem_of_In.
  subst adjust. simpl. zbool; [|done].
  pose proof (Hone it Hit e) as H1. destruct it as [b q]; simpl in *. subst q. f_equal. lia.
Qed.

End updateCartQuantity.

(** Witness of C7: "-" five times at once on a laptop line of quantity 1. *)
Lemma updateCartQuantity_update_keeps_target_witness :
  1 ∈ ids [mkItem (mkProduct 1 "Laptop" 500) 1] ∧
  1 ∈ ids (updateCartQuantity_update 1 (-5) [mkItem (mkProduct 1 "Laptop" 500) 1]).
Proof.
  assert (H : 1 ∈ ids [mkItem (mkProduct 1 "Laptop" 500) 1]) by (simpl; left).
  split; [exact H|]. apply (updateCartQuantity_update_keeps_target 1 (-5) _ H).
Defined.

(** ** removeFromCart *)

Lemma ids_removeFromCart_update productId c :
  ids (removeFromCart_update productId c) = List.filter (λ x, negb (Z.eqb x productId)) (ids c).
Proof.
  induction c as [|it c IH]; simpl; [done|].
  destruct (Z.eqb (id it) productId); simpl; by rewrite IH.
Qed.

Lemma removeFromCart_update_wf productId c :
  wf_cart c → wf_cart (removeFromCart_update productId c).
Proof. intros [Hn Hc]. split; [by apply NoDup_map_filter|by apply Forall_filter_bool]. Qed.

Lemma hasGift_false c : hasGift c = false ↔ id FREE_GIFT ∉ ids c.
Proof.
  induction c as [|it c IH]; simpl; [set_solver|].
  rewrite orb_false_iff, IH, elem_of_cons. unfold is_gift. zbool; naive_solver.
Qed.

Lemma removeFromCart_update_hasGift productId c :
  productId ≠ id FREE_GIFT → hasGift (removeFromCart_update productId c) = hasGift c.
Proof.
  intros Hpid. induction c as [|it c IH]; simpl; [done|].
  destruct (Z.eqb_spec (id it) productId) as [Hid|]; simpl; rewrite IH; [|done].
  rewrite is_gift_false by congruence. done.
Qed.

(** ** The effect's updaters *)

Lemma addGift_update_wf c : wf_cart c → hasGift c = false → wf_cart (addGift_update c).
Proof.
  intros [Hn Hc] Hg%hasGift_false. split.
  - unfold addGift_update. rewrite ids_app. apply NoDup_app.
    split; [done|]. split; [set_solver|]. apply NoDup_singleton.
  - apply Forall_app. split; [done|]. apply Forall_singleton. by left.
Qed.

Lemma addGift_update_hasGift c : hasGift (addGift_update c) = true.
Proof. unfold addGift_update. rewrite hasGift_app. simpl. by rewrite !orb_true_r. Qed.

Lemma addGift_update_subtotal c : subtotal (addGift_update c) = subtotal c.
Proof. unfold addGift_update. rewrite subtotal_app. change (subtotal [gift_line]) with 0. lia. Qed.

Lemma removeGift_update_wf c : wf_cart c → wf_cart (removeGift_update c).
Proof. apply removeFromCart_update_wf. Qed.

Lemma removeGift_update_hasGift c : hasGift (removeGift_update c) = false.
Proof.
  apply hasGift_false. unfold removeGift_update, ids. rewrite elem_of_map_filter.
  intros (it & _ & Hng & Hid). unfold not_gift in Hng. zbool; done.
Qed.

Lemma removeGift_update_subtotal c : subtotal (removeGift_update c) = subtotal c.
Proof.
  rewrite !subtotal_spec. unfold removeGift_update. f_equal.
  induction c as [|it c IH]; simpl; [done|].
  destruct (not_gift it) eqn:E; simpl; rewrite ?E; congruence.
Qed.

End CartOps.

Export CartOps.
