(* ===== verification/CartSpec.v ===== *)
(** CartSpec.v: what the cart means, abstractly. A cart is, up to the
    order of its lines and the gift line, a finite map from product id to
    quantity; [abs] reads it off the list App.js keeps. The specification
    operations are map operations (insert, alter, delete) and the subtotal
    is a sum over the catalog. Each cart updater of CartOps refines its
    specification operation on well-formed carts. *)

From S2P Require Import Prelude Catalog CartOps.

Module CartSpec.

Implicit Types (c : list item) (m : gmap Z Z) (p : product).

(** The abstraction: the non-gift lines as a map from id to quantity. *)
Fixpoint abs c : gmap Z Z :=
  match c with
  | [] => ∅
  | it :: c' => if not_gift it then <[id it := quantity it]> (abs c') else abs c'
  end.

(** Adding [quantity] units of a product. *)
Definition spec_add (quantity : Z) p m : gmap Z Z :=
  <[id p := default 0 (m !! id p) + quantity]> m.

(** Changing a present product's quantity by [delta], never below 1. *)
Definition spec_update (productId delta : Z) m : gmap Z Z :=
  alter (λ v, Z.max (v + delta) 1) productId m.

Definition spec_remove (productId : Z) m : gmap Z Z := delete productId m.

(** The subtotal of an abstract cart: each catalog product's price times
    its quantity (0 when absent). *)
Definition spec_subtotal m : Z :=
  sumZ (λ p, price p * default 0 (m !! id p)) PRODUCTS.

(** ** Lookups in the abstraction *)

Lemma abs_lookup_none c x : x ∉ ids c → abs c !! x = None.
Proof.
  induction c as [|it c IH]; simpl; [done|]. rewrite elem_of_cons. intros Hx.
  destruct (not_gift it); [rewrite lookup_insert_ne by naive_solver|]; naive_solver.
Qed.

Lemma abs_lookup_gift c : abs c !! id FREE_GIFT = None.
Proof.
  induction c as [|it c IH]; simpl; [done|].
  destruct (not_gift it) eqn:E; [|done]. unfold not_gift in E.
  rewrite lookup_insert_ne; [done|]. zbool; done.
Qed.

(** In a well-formed cart, the abstraction holds a catalog product's
    quantity when it has a line. *)
Lemma abs_lookup_line c (it : item) :
  NoDup (ids c) → it ∈ c → not_gift it = true → abs c !! id it = Some (quantity it).
Proof.
  induction c as [|x c IH]; [set_solver|]. unfold ids; simpl.
  rewrite NoDup_cons, elem_of_cons. intros [Hx Hn] [->|Hin] Hg.
  - by rewrite Hg, lookup_insert_eq.
  - assert (id x ≠ id it) by (intros E; apply Hx; rewrite E; by apply elem_of_ids).
    destruct (not_gift x); [rewrite lookup_insert_ne by done|]; by apply IH.
Qed.

(** Updating the line of id [x] with [g] on its quantity is [alter g x]
    on the abstraction: the shape shared by [addToCart]'s and
    [updateCartQuantity]'s [map]. *)
Lemma abs_map_update (x : Z) (g : Z → Z) c :
  NoDup (ids c) → x ≠ id FREE_GIFT →
  abs (map (λ it : item, if Z.eqb (id it) x then mkItem (base it) (g (quantity it)) else it) c)
    = alter g x (abs c).
Proof.
  intros Hn Hx. induction c as [|it c IH]; simpl; [done|].
  revert Hn. unfold ids; simpl. rewrite NoDup_cons. intros [Hit Hn].
  destruct (Z.eqb_spec (id it) x) as [<-|Hne].
  - rewrite map_update_absent by done.
    rewrite !not_gift_true by done. by rewrite alter_insert_eq.
  - simpl. rewrite IH by done. destruct (not_gift it); [|done].
    by rewrite alter_insert_ne by congruence.
Qed.

Lemma abs_snoc c (it : item) :
  id it ∉ ids c → abs (c ++ [it]) = if not_gift it then <[id it := quantity it]> (abs c) else abs c.
Proof.
  induction c as [|x c IH]; simpl; [by rewrite insert_empty|]. rewrite elem_of_cons.
  intros Hit. rewrite IH by naive_solver.
  destruct (not_gift x), (not_gift it); try done. apply insert_insert_ne. naive_solver.
Qed.

Lemma alter_lookup_Some (g : Z → Z) m x v : m !! x = Some v → alter g x m = <[x := g v]> m.
Proof. intros Hv. rewrite <- (insert_id m x v Hv) at 1. apply alter_insert_eq. Qed.

(** ** Refinement of the cart updaters *)

(** [addToCart]'s updater adds the pending quantity to the product's
    abstract quantity. *)
Lemma abs_addToCart_update (quantity : Z) p c :
  wf_cart c → p ∈ PRODUCTS → abs (addToCart_update quantity p c) = spec_add quantity p (abs c).
Proof.
  intros [Hn Hc] Hp. pose proof (PRODUCTS_not_gift p Hp) as Hng. unfold spec_add.
  destruct (addToCart_update_cases quantity p c) as [[Hin ->]|[Hnin ->]].
  - rewrite (abs_map_update (id p) (λ v, v + quantity)) by done.
    apply list_elem_of_In, in_map_iff in Hin as (it & Hid & Hit%list_elem_of_In).
    assert (Hl : abs c !! id p = Some (Catalog.quantity it)).
    { rewrite <- Hid. apply abs_lookup_line; [done|done|]. by apply not_gift_true; rewrite Hid. }
    by rewrite (alter_lookup_Some _ _ _ _ Hl), Hl.
  - rewrite abs_snoc by done. rewrite not_gift_true by done. simpl.
    rewrite abs_lookup_none by done. simpl. f_equal.
Qed.

Lemma abs_updateCartQuantity_update productId delta c :
  wf_cart c → productId ≠ id FREE_GIFT →
  abs (updateCartQuantity_update productId delta c) = spec_update productId delta (abs c).
Proof.
  intros Hwf Hpid. rewrite updateCartQuantity_update_map by by apply wf_cart_pos.
  apply (abs_map_update productId (λ v, Z.max (v + delta) 1)); [apply Hwf|done].
Qed.

Lemma abs_removeFromCart_update productId c :
  abs (removeFromCart_update productId c) = spec_remove productId (abs c).
Proof.
  unfold spec_remove. induction c as [|it c IH]; simpl; [done|].
  destruct (Z.eqb_spec (id it) productId) as [<-|Hne]; simpl.
  - rewrite IH. destruct (not_gift it); [|done]. by rewrite delete_insert_eq.
  - rewrite IH. destruct (not_gift it); [|done]. by rewrite delete_insert_ne by congruence.
Qed.

Lemma abs_addGift_update c : abs (addGift_update c) = abs c.
Proof. unfold addGift_update. induction c as [|it c IH]; simpl; [done|]. by rewrite IH. Qed.

Lemma abs_removeGift_update c : abs (removeGift_update c) = abs c.
Proof.
  change (removeGift_update c) with (removeFromCart_update (id FREE_GIFT) c).
  rewrite abs_removeFromCart_update. apply delete_id, abs_lookup_gift.
Qed.

(** ** The subtotal *)

(** Setting the quantity of a catalog entry absent from the map adds its
    price times the quantity to a sum over a list of products with
    distinct ids. *)
Lemma sum_products_insert (L : list product) m p0 (v : Z) :
  NoDup (map id L) → p0 ∈ L → m !! id p0 = None →
  sumZ (λ p, price p * default 0 (<[id p0 := v]> m !! id p)) L
    = sumZ (λ p, price p * default 0 (m !! id p)) L + price p0 * v.
Proof.
  induction L as [|p L IH]; [set_solver|]. simpl. rewrite NoDup_cons, elem_of_cons.
  intros [Hp Hn] [->|Hin] Hm.
  - rewrite lookup_insert_eq, Hm. simpl.
    rewrite (sumZ_ext _ (λ q, price q * default 0 (m !! id q))); [lia|].
    intros q Hq. rewrite lookup_insert_ne; [done|].
    intros E. apply Hp. rewrite E. apply list_elem_of_In, in_map, list_elem_of_In, Hq.
  - rewrite lookup_insert_ne by (intros E; apply Hp; rewrite <- E;
      apply list_elem_of_In, in_map, list_elem_of_In, Hin).
    rewrite IH by done. lia.
Qed.

(** The code's subtotal of a well-formed cart is the specification's
    subtotal of its abstraction. *)
Lemma subtotal_abs c : wf_cart c → subtotal c = spec_subtotal (abs c).
Proof.
  induction c as [|it c IH]; [done|]. rewrite wf_cart_cons.
  intros (Hnin & Hit & Hc). rewrite subtotal_cons. simpl.
  destruct (not_gift it) eqn:E; [|by rewrite IH].
  destruct Hit as [->|[Hb Hq]]; [discriminate|].
  unfold spec_subtotal. rewrite (sum_products_insert _ _ (base it)).
  - rewrite IH by done. unfold line_total, spec_subtotal. lia.
  - apply PRODUCTS_ids_nodup.
  - done.
  - by apply abs_lookup_none.
Qed.

End CartSpec.

Export CartSpec.
