(* ===== verification/Pending.v ===== *)
(** Pending.v: the [quantities] state of App.js, a JS object used as a map
    from product id to the pending "add" quantity, modelled as a [gmap];
    the read [quantities[product.id] || 1] (lines 42 and 91) and the
    updater of [handleQuantityChange] (lines 34-39). *)

From S2P Require Import Prelude.

Module Pending.

Implicit Types (quantities prev : gmap Z Z) (productId delta : Z).

(** [quantities[productId] || 1]. *)
Definition pending quantities productId : Z := quantities !! productId ||ᶻ 1.

(** App.js 35-38: [prev => { const newQty = Math.max((prev[productId] || 1)
    + delta, 1); return { ...prev, [productId]: newQty }; }]. *)
Definition handleQuantityChange_update productId delta prev : gmap Z Z :=
  let newQty := Z.max (prev !! productId ||ᶻ 1 + delta) 1 in
  <[productId := newQty]> prev.

(** Spec I4: every stored pending quantity is at least 1. *)
Definition pending_ok quantities : Prop := map_Forall (λ _ v, 1 ≤ v) quantities.

(** ** Lemmas *)

Lemma pending_ge_1 quantities productId :
  pending_ok quantities → 1 ≤ pending quantities productId.
Proof.
  intros Hq. unfold pending. destruct (quantities !! productId) as [v|] eqn:E; simpl; [|lia].
  apply Hq in E. zbool; lia.
Qed.

Lemma handleQuantityChange_update_ok productId delta prev :
  pending_ok prev → pending_ok (handleQuantityChange_update productId delta prev).
Proof. intros Hq. apply map_Forall_insert_2; [lia|done]. Qed.

(** The pending quantity read back after the update is the clamped sum. *)
Lemma pending_handleQuantityChange productId delta prev :
  pending (handleQuantityChange_update productId delta prev) productId
  = Z.max (pending prev productId + delta) 1.
Proof.
  unfold pending, handleQuantityChange_update. rewrite lookup_insert_eq. simpl. zbool; lia.
Qed.

Lemma pending_handleQuantityChange_ne productId productId' delta prev :
  productId ≠ productId' →
  pending (handleQuantityChange_update productId delta prev) productId' = pending prev productId'.
Proof. intros Hne. unfold pending, handleQuantityChange_update. by rewrite lookup_insert_ne. Qed.

End Pending.

Export Pending.
