(* ===== verification/React.v ===== *)
(** React.v: the state of the [App] component and the way React applies
    the updates its handlers and its effect queue. App.js lines 15-17 declare
    three [useState] hooks; a handler or the effect calls their setters,
    which queue an update (a function of the previous value for [setCart]
    and [setQuantities], a value for [setGiftAdded]); React applies the
    queue in order when it re-renders. *)

From S2P Require Import Prelude Catalog CartOps Pending.

Module React.

(** App.js 15-17. *)
Record state := mkState {
  cart : list item;
  quantities : gmap Z Z;
  giftAdded : bool
}.

(** The initial render: [useState([])], [useState({})], [useState(false)]. *)
Definition init : state := mkState [] ∅ false.

(** A queued state update: [setCart(updater)], [setQuantities(updater)],
    [setGiftAdded(value)]. *)
Inductive update :=
  | SetCart (f : list item → list item)
  | SetQuantities (f : gmap Z Z → gmap Z Z)
  | SetGiftAdded (b : bool).

Definition apply_update (s : state) (u : update) : state :=
  match u with
  | SetCart f => mkState (f (cart s)) (quantities s) (giftAdded s)
  | SetQuantities f => mkState (cart s) (f (quantities s)) (giftAdded s)
  | SetGiftAdded b => mkState (cart s) (quantities s) b
  end.

(** A re-render applies the queued updates in the order they were queued,
    each functional update to the result of the previous ones. *)
Definition commit (us : list update) (s : state) : state := fold_left apply_update us s.

Notation "s ⊲ us" := (commit us s) (at level 40, left associativity) : cart_scope.

(** Every updater App.js passes to [setCart] builds a new array (by
    [map], [filter] or spread), so the [cart] dependency of the effect
    changes exactly when a [setCart] was queued. *)
Definition touches_cart (us : list update) : bool :=
  existsb (λ u, match u with SetCart _ => true | _ => false end) us.

(** Updates that do not touch the cart leave it as it is. *)
Lemma commit_cart_untouched us s : touches_cart us = false → cart (s ⊲ us) = cart s.
Proof.
  revert s. induction us as [|u us IH]; intros s; [done|].
  destruct u; simpl; [discriminate|intros H; by rewrite IH..].
Qed.

End React.

Export React.
