(* ===== verification/Promotion.v ===== *)
(** Promotion.v: the free-gift rule of App.js (lines 23-32), a [useEffect]
    with dependencies [[subtotal, cart]]. After a commit that changes them,
    React runs the effect; when the effect queues updates, React commits
    them and, the cart having changed again, runs the effect once more.
    [settle] is that loop, with fuel. The interface [GiftNeutral] states
    what a cart updater of a handler must promise for the effect to restore
    the promotion invariant after it. *)

From S2P Require Import Prelude Catalog CartOps Pending React.

Module Promotion.

Implicit Types (s : state) (c : list item).

(** App.js 24-31. *)
Definition effect s : list update :=
  let hasGift := hasGift (cart s) in
  let subtotal := subtotal (cart s) in
  if (THRESHOLD <=? subtotal) && negb hasGift then
    [SetCart addGift_update; SetGiftAdded true]
  else if (subtotal <? THRESHOLD) && hasGift then
    [SetCart removeGift_update; SetGiftAdded false]
  else [].

(** The effect loop: run the effect; if it queued nothing the state is
    settled, otherwise commit its updates and run it again. *)
Fixpoint settle (fuel : nat) s : option state :=
  match effect s with
  | [] => Some s
  | us => match fuel with
          | O => None
          | S fuel' => settle fuel' (s ⊲ us)
          end
  end.

(** The fuel of the app's effect loop: React aborts a render loop after
    50 nested updates ("Maximum update depth exceeded"). One is enough
    ([settle_total]). *)
Definition render_fuel : nat := 50.

(** One run of the effect with its updates committed. *)
Definition promote s : state := s ⊲ effect s.

(** Spec I2: the gift line is in the cart exactly when the subtotal
    reaches the threshold; and the [giftAdded] flag agrees with the cart. *)
Definition gift_consistent s : Prop :=
  hasGift (cart s) = (THRESHOLD <=? subtotal (cart s)) ∧ giftAdded s = hasGift (cart s).

(** What a handler's cart updater promises the effect: it keeps a
    well-formed cart well formed and does not add or remove the gift. *)
Class GiftNeutral (f : list item → list item) : Prop := {
  neutral_wf c : wf_cart c → wf_cart (f c);
  neutral_hasGift c : wf_cart c → hasGift (f c) = hasGift c
}.

(** ** The effect's cases *)

Lemma effect_add s :
  THRESHOLD ≤ subtotal (cart s) → hasGift (cart s) = false →
  effect s = [SetCart addGift_update; SetGiftAdded true].
Proof. intros Ht Hg. unfold effect; cbv zeta. rewrite Hg. zbool; first [done | lia]. Qed.

Lemma effect_remove s :
  subtotal (cart s) < THRESHOLD → hasGift (cart s) = true →
  effect s = [SetCart removeGift_update; SetGiftAdded false].
Proof. intros Ht Hg. unfold effect; cbv zeta. rewrite Hg. zbool; first [done | lia]. Qed.

(** The effect queues nothing exactly when the cart already agrees with
    the rule. *)
Lemma effect_nil_iff s :
  effect s = [] ↔ hasGift (cart s) = (THRESHOLD <=? subtotal (cart s)).
Proof.
  unfold effect; cbv zeta.
  destruct (hasGift (cart s)), (Z.leb_spec THRESHOLD (subtotal (cart s))),
    (Z.ltb_spec (subtotal (cart s)) THRESHOLD); simpl; split; intros; first [done | lia].
Qed.

Lemma promote_cases s :
  (effect s = [] ∧ promote s = s) ∨
  (THRESHOLD ≤ subtotal (cart s) ∧ hasGift (cart s) = false ∧
     promote s = mkState (addGift_update (cart s)) (quantities s) true) ∨
  (subtotal (cart s) < THRESHOLD ∧ hasGift (cart s) = true ∧
     promote s = mkState (removeGift_update (cart s)) (quantities s) false).
Proof.
  unfold promote. destruct (hasGift (cart s)) eqn:Hg;
    destruct (Z.leb_spec THRESHOLD (subtotal (cart s))).
  - left. assert (effect s = []) as -> by (apply effect_nil_iff; rewrite Hg; zbool; first [done | lia]). done.
  - right; right. rewrite effect_remove by done. done.
  - right; left. rewrite effect_add by done. done.
  - left. assert (effect s = []) as -> by (apply effect_nil_iff; rewrite Hg; zbool; first [done | lia]). done.
Qed.

Lemma promote_subtotal s : subtotal (cart (promote s)) = subtotal (cart s).
Proof.
  destruct (promote_cases s) as [[_ ->]|[(_ & _ & ->)|(_ & _ & ->)]]; simpl;
    auto using addGift_update_subtotal, removeGift_update_subtotal.
Qed.

Lemma promote_quantities s : quantities (promote s) = quantities s.
Proof. by destruct (promote_cases s) as [[_ ->]|[(_ & _ & ->)|(_ & _ & ->)]]. Qed.

Lemma promote_wf s : wf_cart (cart s) → wf_cart (cart (promote s)).
Proof.
  intros Hc. destruct (promote_cases s) as [[_ ->]|[(_ & Hg & ->)|(_ & _ & ->)]]; simpl.
  - done.
  - by apply addGift_update_wf.
  - by apply removeGift_update_wf.
Qed.

(** ** The rule holds after one run of the effect *)

(** The second run of the effect queues nothing: the effect cannot start
    an update loop. *)
Lemma effect_after_promote s : effect (promote s) = [].
Proof.
  apply effect_nil_iff. rewrite promote_subtotal.
  destruct (promote_cases s) as [[Hnil ->]|[(Ht & _ & ->)|(Ht & _ & ->)]]; simpl.
  - by apply effect_nil_iff.
  - rewrite addGift_update_hasGift. zbool; [done|lia].
  - rewrite removeGift_update_hasGift. zbool; [lia|done].
Qed.

(** Whether the effect, run on [s], queues nothing. *)
Definition effect_idle s : bool := match effect s with [] => true | _ :: _ => false end.

Lemma settle_S (n : nat) s : settle (S n) s = Some (promote s).
Proof.
  assert (Hstop : ∀ m t, effect t = [] → settle m t = Some t)
    by (intros [|m] t Ht; simpl; by rewrite Ht).
  cbn [settle]. destruct (effect s) as [|u us] eqn:He.
  - unfold promote. by rewrite He.
  - replace (s ⊲ (u :: us)) with (promote s) by (unfold promote; by rewrite He).
    apply Hstop, effect_after_promote.
Qed.

Lemma promote_flag s :
  giftAdded s = hasGift (cart s) → giftAdded (promote s) = hasGift (cart (promote s)).
Proof.
  intros Hf. destruct (promote_cases s) as [[_ ->]|[(_ & _ & ->)|(_ & _ & ->)]]; simpl.
  - done.
  - by rewrite addGift_update_hasGift.
  - by rewrite removeGift_update_hasGift.
Qed.

Lemma promote_consistent s :
  giftAdded s = hasGift (cart s) → gift_consistent (promote s).
Proof. intros Hf. split; [apply effect_nil_iff, effect_after_promote|by apply promote_flag]. Qed.

(** The client side of [GiftNeutral]: after a handler's cart update that
    keeps its promise, the effect restores the whole invariant. *)
Theorem neutral_update_then_promote (f : list item → list item) `{!GiftNeutral f} s :
  wf_cart (cart s) → giftAdded s = hasGift (cart s) →
  wf_cart (cart (promote (s ⊲ [SetCart f]))) ∧ gift_consistent (promote (s ⊲ [SetCart f])).
Proof.
  intros Hwf Hf. split.
  - apply promote_wf. simpl. by apply neutral_wf.
  - apply promote_consistent. simpl. by rewrite neutral_hasGift.
Qed.

(** ** Properties of the promotion rule *)

(** C3. Whatever the state, once the effect has run and its updates are
    committed, the gift is in the cart exactly when the subtotal is at
    least THRESHOLD. *)
Theorem promote_establishes_rule s :
  hasGift (cart (promote s)) = (THRESHOLD <=? subtotal (cart (promote s))).
Proof. apply effect_nil_iff, effect_after_promote. Qed.

(** C4. Spec P4: applying the rule twice is applying it once. *)
Theorem promote_idempotent s : promote (promote s) = promote s.
Proof. unfold promote at 1. by rewrite effect_after_promote. Qed.

(** C5. The effect loop settles after at most one round of updates: with
    any fuel it returns the state after one run of the effect, and it runs
    out of fuel only when given none and the effect has work to do. *)
Theorem settle_fuel_spec (n : nat) s :
  settle n s = if effect_idle s || (0 <? n)%nat then Some (promote s) else None.
Proof.
  destruct n as [|n]; [|rewrite settle_S; by destruct (effect_idle s)].
  unfold effect_idle, promote. simpl. by destruct (effect s).
Qed.

End Promotion.

Export Promotion.
