(* ===== verification/App.v ===== *)
(** App.v: the [App] component as a state machine. The events are the
    [onClick] callbacks of the rendered buttons (App.js 84-101 for each
    catalog product, 139-156 for each non-gift cart line); a handler queues
    state updates; React commits them and, when the cart changed, runs the
    promotion effect until it settles. [reachable] is the set of states a
    user can reach from the first render by clicking. *)

From S2P Require Import Prelude Catalog CartOps Pending React Promotion.

Module App.

Implicit Types (s : state) (p : product).

(** The user events, one per kind of [onClick] callback. *)
Inductive event :=
  | QuantityChange (productId delta : Z)
  | AddToCart (p : product)
  | UpdateCartQuantity (productId delta : Z)
  | RemoveFromCart (productId : Z).

#[export] Instance event_eq_dec : EqDecision event.
Proof. intros e1 e2; unfold Decision; decide equality; apply decide, _. Defined.

(** ** The handlers: the updates each one queues *)

(** App.js 34-39. *)
Definition handleQuantityChange (productId delta : Z) : list update :=
  [SetQuantities (handleQuantityChange_update productId delta)].

(** App.js 41-55: the pending quantity is read from the [quantities] of
    the render the click happened in. *)
Definition addToCart s p : list update :=
  let quantity := pending (quantities s) (id p) in
  [SetCart (addToCart_update quantity p)].

(** App.js 57-67. *)
Definition updateCartQuantity (productId delta : Z) : list update :=
  [SetCart (updateCartQuantity_update productId delta)].

(** App.js 69-72: the early return queues nothing. *)
Definition removeFromCart (productId : Z) : list update :=
  if Z.eqb productId (id FREE_GIFT) then []
  else [SetCart (removeFromCart_update productId)].

Definition handler s (ev : event) : list update :=
  match ev with
  | QuantityChange productId delta => handleQuantityChange productId delta
  | AddToCart p => addToCart s p
  | UpdateCartQuantity productId delta => updateCartQuantity productId delta
  | RemoveFromCart productId => removeFromCart productId
  end.

(** One click: run the handler, commit its updates; if the cart changed,
    the effect (whose dependencies are [subtotal] and [cart]) runs until it
    settles. *)
Definition dispatch (ev : event) s : option state :=
  let us := handler s ev in
  let s1 := s ⊲ us in
  if touches_cart us then settle render_fuel s1 else Some s1.

(** ** The rendered buttons *)

(** App.js 79-103: three buttons per catalog product. *)
Definition product_buttons p : list event :=
  [QuantityChange (id p) (-1); QuantityChange (id p) 1; AddToCart p].

(** App.js 132-160: three buttons per cart line, rendered only when
    [item.id !== FREE_GIFT.id]. *)
Definition line_buttons (it : item) : list event :=
  if not_gift it
  then [UpdateCartQuantity (id it) (-1); UpdateCartQuantity (id it) 1; RemoveFromCart (id it)]
  else [].

Definition buttons s : list event :=
  flat_map product_buttons PRODUCTS ++ flat_map line_buttons (cart s).

(** The states reachable from the first render by clicking a rendered
    button. The mount effect queues nothing on the initial state
    ([mount_settled]). *)
Inductive reachable : state → Prop :=
  | reachable_init : reachable init
  | reachable_step s ev s' :
      reachable s → ev ∈ buttons s → dispatch ev s = Some s' → reachable s'.

(** The invariant of the running app: a well-formed cart (I1, I3, I5),
    pending quantities at least 1 (I4), the promotion rule and the flag
    (I2). *)
Definition app_inv s : Prop :=
  wf_cart (cart s) ∧ pending_ok (quantities s) ∧ gift_consistent s.

(** ** The handlers' cart updaters keep the promise of [GiftNeutral] *)

#[export] Instance addToCart_neutral quantity p :
  p ∈ PRODUCTS → 1 ≤ quantity → GiftNeutral (addToCart_update quantity p).
Proof.
  intros Hp Hq. split; intros c Hc.
  - by apply addToCart_update_wf.
  - by apply addToCart_update_hasGift.
Qed.

#[export] Instance updateCartQuantity_neutral productId delta :
  productId ≠ id FREE_GIFT → GiftNeutral (updateCartQuantity_update productId delta).
Proof.
  intros Hpid. split; intros c Hc.
  - by apply updateCartQuantity_update_wf.
  - by apply updateCartQuantity_update_hasGift.
Qed.

#[export] Instance removeFromCart_neutral productId :
  productId ≠ id FREE_GIFT → GiftNeutral (removeFromCart_update productId).
Proof.
  intros Hpid. split; intros c Hc.
  - by apply removeFromCart_update_wf.
  - by apply removeFromCart_update_hasGift.
Qed.

(** ** What the rendered buttons can do *)

(** The argument shapes the presentation layer promises the handlers
    (spec 4.2): a catalog product for [addToCart], an id other than the
    gift's for [updateCartQuantity] and [removeFromCart], any delta. *)
Definition valid_call (ev : event) : Prop :=
  match ev with
  | QuantityChange _ _ => True
  | AddToCart p => p ∈ PRODUCTS
  | UpdateCartQuantity productId _ | RemoveFromCart productId => productId ≠ id FREE_GIFT
  end.

Lemma buttons_ok s ev : ev ∈ buttons s → valid_call ev.
Proof.
  unfold buttons. rewrite elem_of_app, !list_elem_of_In, !in_flat_map.
  intros [(p & Hp & Hev)|(it & _ & Hev)].
  - apply list_elem_of_In in Hp. simpl in Hev. naive_solver.
  - unfold line_buttons, not_gift in Hev. zbool; simpl in Hev; naive_solver.
Qed.

(** ** Dispatch always settles *)

Lemma dispatch_eq ev s :
  dispatch ev s =
    Some (if touches_cart (handler s ev) then promote (s ⊲ handler s ev) else s ⊲ handler s ev).
Proof. unfold dispatch. destruct (touches_cart _); [apply settle_S|done]. Qed.

Lemma state_eta s : mkState (cart s) (quantities s) (giftAdded s) = s.
Proof. by destruct s. Qed.

(** ** The invariant *)

Lemma app_inv_init : app_inv init.
Proof. split; [split; [constructor|constructor]|]. split; [apply map_Forall_empty|]. done. Qed.

(** A handler that queues one cart update keeping the promise. *)
Lemma app_inv_cart_update (f : list item → list item) `{!GiftNeutral f} s :
  app_inv s → app_inv (promote (s ⊲ [SetCart f])).
Proof.
  intros (Hwf & Hq & _ & Hf). destruct (neutral_update_then_promote f s Hwf Hf).
  split; [done|]. split; [|done]. by rewrite promote_quantities.
Qed.

(** A [removeFromCart] call with an id other than the gift's queues its
    cart update. *)
Lemma removeFromCart_not_gift productId :
  productId ≠ id FREE_GIFT → removeFromCart productId = [SetCart (removeFromCart_update productId)].
Proof. intros Hne. unfold removeFromCart. by destruct (Z.eqb_spec productId (id FREE_GIFT)). Qed.

Lemma app_inv_step_valid s ev s' :
  app_inv s → valid_call ev → dispatch ev s = Some s' → app_inv s'.
Proof.
  intros Hinv Hev. rewrite dispatch_eq. intros [= <-].
  pose proof Hinv as (Hwf & Hq & Hg).
  destruct ev as [productId delta|p|productId delta|productId]; cbn [handler valid_call] in Hev |- *.
  - simpl. split; [done|]. split; [by apply handleQuantityChange_update_ok|done].
  - simpl. apply app_inv_cart_update; [|done]. apply addToCart_neutral; [done|].
    by apply pending_ge_1.
  - simpl. apply app_inv_cart_update; [|done]. by apply updateCartQuantity_neutral.
  - rewrite removeFromCart_not_gift by done. simpl.
    apply app_inv_cart_update; [|done]. by apply removeFromCart_neutral.
Qed.

Lemma app_inv_step s ev s' :
  app_inv s → ev ∈ buttons s → dispatch ev s = Some s' → app_inv s'.
Proof. intros Hinv Hev%buttons_ok. by apply app_inv_step_valid. Qed.

(** The invariant of a reachable state, by rule induction. *)
Ltac app_inv_of Hr :=
  match type of Hr with
  | reachable ?s => assert (app_inv s) by (clear - Hr; induction Hr; eauto with cart)
  end.

Lemma gift_line_in_iff c : wf_cart c → gift_line ∈ c ↔ hasGift c = true.
Proof.
  intros [_ Hc]. unfold hasGift. rewrite existsb_exists. split.
  - intros Hin. exists gift_line. split; [by apply list_elem_of_In|done].
  - intros (it & Hin%list_elem_of_In & Hg). rewrite Forall_forall in Hc.
    by rewrite <- (line_ok_gift it (Hc it Hin) Hg).
Qed.

Lemma ids_inj c (it it' : item) :
  NoDup (ids c) → it ∈ c → it' ∈ c → id it = id it' → it = it'.
Proof.
  induction c as [|x c IH]; [set_solver|]. unfold ids; simpl.
  rewrite NoDup_cons, !elem_of_cons. intros [Hx Hn] Hit Hit' Hid.
  destruct Hit as [->|Hit], Hit' as [->|Hit']; auto.
  - destruct Hx. rewrite Hid. by apply elem_of_ids.
  - destruct Hx. rewrite <- Hid. by apply elem_of_ids.
Qed.

(** ** Running a sequence of clicks *)

(** Click the buttons [evs] in order, each on the state the previous one
    produced; [None] when a click is not on a rendered button. *)
Fixpoint run (evs : list event) s : option state :=
  match evs with
  | [] => Some s
  | ev :: evs' =>
      if bool_decide (ev ∈ buttons s) then dispatch ev s ≫= run evs' else None
  end.

Lemma run_reachable evs s s' : reachable s → run evs s = Some s' → reachable s'.
Proof.
  revert s. induction evs as [|ev evs IH]; simpl; intros s Hr Hrun; [congruence|].
  case_bool_decide as Hev; [|done].
  destruct (dispatch ev s) as [s1|] eqn:Hd; simpl in Hrun; [|done].
  eapply IH; [|done]. by eapply reachable_step.
Qed.

Definition laptop : product := mkProduct 1 "Laptop" 500.
Definition smartphone : product := mkProduct 2 "Smartphone" 300.
Definition headphones : product := mkProduct 3 "Headphones" 100.

(** ** The properties of the running app *)

(** C1. Every state reachable from the first render by clicking the
    rendered buttons satisfies the invariant: at most one line per product
    id, every line the gift line or a catalog product with quantity at
    least 1, every pending quantity at least 1, the gift in the cart exactly
    when the subtotal reaches the threshold, and [giftAdded] equal to the
    gift's presence. *)
Theorem reachable_app_inv s : reachable s → app_inv s.
Proof.
  induction 1 as [|s ev s' _ IH Hev Hd]; [apply app_inv_init|].
  by apply (app_inv_step s ev s').
Qed.

#[export] Hint Resolve app_inv_init app_inv_step : cart.

(** C2. Spec P1: in a reachable state the gift line [{ ...FREE_GIFT,
    quantity: 1 }] is in the cart if and only if the subtotal is at least
    THRESHOLD. *)
Theorem reachable_gift_iff s :
  reachable s → (gift_line ∈ cart s ↔ THRESHOLD ≤ subtotal (cart s)).
Proof.
  intros Hr. app_inv_of Hr. destruct H as (Hwf & _ & Hrule & _).
  rewrite gift_line_in_iff, Hrule by done. apply Z.leb_le.
Qed.

(** C8. Spec P5: clicking "Remove" with the gift's id changes nothing:
    the handler returns before queuing an update. *)
Theorem remove_gift_noop s : dispatch (RemoveFromCart (id FREE_GIFT)) s = Some s.
Proof. rewrite dispatch_eq. simpl. by destruct s. Qed.

(** C6. The "-" button of a cart line whose quantity is 1 does nothing:
    [Math.max(1 - 1, 1)] is 1, so the line is never removed (the spec's
    scenario 3 expects it removed). *)
Theorem minus_at_one_noop s it :
  reachable s → it ∈ cart s → not_gift it = true → quantity it = 1 →
  dispatch (UpdateCartQuantity (id it) (-1)) s = Some s.
Proof.
  intros Hr Hit _ Hq. app_inv_of Hr. destruct H as (Hwf & _ & Hrule & _).
  rewrite dispatch_eq. simpl.
  rewrite (updateCartQuantity_update_at_one (id it) (-1) (cart s)); [|done|lia|].
  - rewrite state_eta. unfold promote. by rewrite (proj2 (effect_nil_iff s) Hrule).
  - intros it' Hit' Hid. rewrite <- (ids_inj (cart s) it it'); auto. apply Hwf.
Qed.

Lemma dispatch_add_subtotal s p s' :
  app_inv s → p ∈ PRODUCTS → dispatch (AddToCart p) s = Some s' →
  subtotal (cart s') = subtotal (cart s) + price p * pending (quantities s) (id p).
Proof.
  intros (Hwf & _) Hp. rewrite dispatch_eq. intros [= <-]. simpl.
  rewrite promote_subtotal. simpl. by apply addToCart_update_subtotal.
Qed.

(** C10. Clicking "Add to Cart" for a catalog product adds the product's
    price times the pending quantity shown for it to the subtotal; the
    effect that follows does not change the subtotal. *)
Theorem addToCart_subtotal s p s' :
  reachable s → p ∈ PRODUCTS → dispatch (AddToCart p) s = Some s' →
  subtotal (cart s') = subtotal (cart s) + price p * pending (quantities s) (id p).
Proof.
  intros Hr Hp. app_inv_of Hr. by apply dispatch_add_subtotal.
Qed.

(** C12. Clicking "+" or "-" next to a catalog product changes only that
    product's pending quantity, to [Math.max(shown + delta, 1)]: the other
    products' pending quantities, the cart and the gift flag are untouched
    and the effect does not run. *)
Theorem quantityChange_effect productId delta s s' :
  dispatch (QuantityChange productId delta) s = Some s' →
  cart s' = cart s ∧ giftAdded s' = giftAdded s ∧
  pending (quantities s') productId = Z.max (pending (quantities s) productId + delta) 1 ∧
  (∀ productId', productId' ≠ productId →
     pending (quantities s') productId' = pending (quantities s) productId').
Proof.
  rewrite dispatch_eq. intros [= <-]. simpl. split_and!; [done|done| |].
  - apply pending_handleQuantityChange.
  - intros productId' Hne. by apply pending_handleQuantityChange_ne.
Qed.

(** ** The spec's scenarios, run on the model *)

(** Scenario 1: "+" on Laptop, then "Add to Cart": two laptops, subtotal
    1000, the gift appended and the flag set. *)
Definition two_laptops : state := mkState [mkItem laptop 2; gift_line] {[1 := 2]} true.

Example scenario_1 : run [QuantityChange 1 1; AddToCart laptop] init = Some two_laptops.
Proof. vm_compute. reflexivity. Qed.

(** Scenario 2: one smartphone, subtotal 300, no gift. *)
Example scenario_2 :
  run [AddToCart smartphone] init = Some (mkState [mkItem smartphone 1] ∅ false).
Proof. vm_compute. reflexivity. Qed.

(** Scenario 3 as the code runs it: after two laptops, "-" twice leaves
    one laptop (the second "-" does nothing), subtotal 500 and no gift. *)
Definition one_laptop : state := mkState [mkItem laptop 1] {[1 := 2]} false.

Example scenario_3 :
  run [QuantityChange 1 1; AddToCart laptop; UpdateCartQuantity 1 (-1); UpdateCartQuantity 1 (-1)]
    init = Some one_laptop.
Proof. vm_compute. reflexivity. Qed.

(** Scenario 4: "+" twice on Headphones, then "Add to Cart": three
    headphones, line value 300. *)
Example scenario_4 :
  run [QuantityChange 3 1; QuantityChange 3 1; AddToCart headphones] init
    = Some (mkState [mkItem headphones 3] {[3 := 3]} false).
Proof. vm_compute. reflexivity. Qed.

(** Scenario 5: "Add to Cart" twice on Laptop with the pending quantity
    left at 1: one line of two laptops (and the gift, the subtotal being
    1000). *)
Example scenario_5 :
  run [AddToCart laptop; AddToCart laptop] init
    = Some (mkState [mkItem laptop 2; gift_line] ∅ true).
Proof. vm_compute. reflexivity. Qed.

Lemma two_laptops_reachable : reachable two_laptops.
Proof. exact (run_reachable _ _ _ reachable_init scenario_1). Qed.

Lemma one_laptop_reachable : reachable one_laptop.
Proof. exact (run_reachable _ _ _ reachable_init scenario_3). Qed.

(** The state after "+" on Laptop: nothing in the cart, pending 2. *)
Definition laptop_pending_two : state := mkState [] {[1 := 2]} false.

Lemma laptop_pending_two_reachable : reachable laptop_pending_two.
Proof.
  apply (run_reachable [QuantityChange 1 1] init); [constructor|vm_compute; reflexivity].
Qed.

(** The render committed by a handler, before the effect has run, does
    not satisfy the promotion rule: after "+" on Laptop, clicking "Add to
    Cart" commits a cart of subtotal 1000 without the gift. Spec I2 holds
    of settled states only. *)
Example handler_commit_breaks_rule :
  reachable laptop_pending_two ∧ AddToCart laptop ∈ buttons laptop_pending_two ∧
  THRESHOLD ≤ subtotal (cart (laptop_pending_two ⊲ handler laptop_pending_two (AddToCart laptop))) ∧
  hasGift (cart (laptop_pending_two ⊲ handler laptop_pending_two (AddToCart laptop))) = false.
Proof.
  split; [exact laptop_pending_two_reachable|].
  split; [apply (bool_decide_unpack _); vm_compute; reflexivity|].
  vm_compute. split; [discriminate|reflexivity].
Qed.

(** ** Witnesses *)

Lemma reachable_app_inv_witness : reachable two_laptops ∧ app_inv two_laptops.
Proof.
  pose proof two_laptops_reachable as Hr. split; [exact Hr|].
  apply (reachable_app_inv two_laptops Hr).
Defined.

Lemma reachable_gift_iff_witness :
  reachable two_laptops ∧ (gift_line ∈ cart two_laptops ↔ THRESHOLD ≤ subtotal (cart two_laptops)).
Proof.
  pose proof two_laptops_reachable as Hr. split; [exact Hr|].
  apply (reachable_gift_iff two_laptops Hr).
Defined.

Lemma minus_at_one_noop_witness :
  reachable one_laptop ∧ mkItem laptop 1 ∈ cart one_laptop ∧
  dispatch (UpdateCartQuantity (id (mkItem laptop 1)) (-1)) one_laptop = Some one_laptop.
Proof.
  pose proof one_laptop_reachable as Hr.
  assert (Hin : mkItem laptop 1 ∈ cart one_laptop) by (simpl; left).
  split; [exact Hr|]. split; [exact Hin|].
  apply (minus_at_one_noop one_laptop (mkItem laptop 1) Hr Hin); reflexivity.
Defined.

Lemma addToCart_subtotal_witness :
  reachable laptop_pending_two ∧ laptop ∈ PRODUCTS ∧
  dispatch (AddToCart laptop) laptop_pending_two = Some two_laptops ∧
  subtotal (cart two_laptops)
    = subtotal (cart laptop_pending_two) + price laptop * pending (quantities laptop_pending_two) (id laptop).
Proof.
  assert (Hp : laptop ∈ PRODUCTS) by (left).
  assert (Hd : dispatch (AddToCart laptop) laptop_pending_two = Some two_laptops)
    by (vm_compute; reflexivity).
  split; [exact laptop_pending_two_reachable|]. split; [exact Hp|]. split; [exact Hd|].
  apply (addToCart_subtotal laptop_pending_two laptop two_laptops
           laptop_pending_two_reachable Hp Hd).
Defined.

Lemma quantityChange_effect_witness :
  dispatch (QuantityChange 3 1) init = Some (mkState [] {[3 := 2]} false) ∧
  pending {[3 := 2]} 3 = Z.max (pending ∅ 3 + 1) 1.
Proof.
  assert (Hd : dispatch (QuantityChange 3 1) init = Some (mkState [] {[3 := 2]} false))
    by (vm_compute; reflexivity).
  split; [exact Hd|]. apply (quantityChange_effect 3 1 init _ Hd).
Defined.

End App.

Export App.
