(* ===== verification/Runs.v ===== *)
(** Runs.v: sequences of events. What the app can still do from any state
    it reaches (liveness), when a click sequence fails (error paths), the
    invariant under any handler call with the argument shapes spec 4.2
    promises, the shape of the [quantities] object, and the bounds that
    keep every number the app computes an exact JavaScript integer. *)

From S2P Require Import Prelude Catalog CartOps CartSpec Pending React Promotion App.

Module Runs.

Implicit Types (s t : state) (evs : list event).

(** The state a click leads to: [dispatch] never fails ([dispatch_eq]). *)
Definition after (ev : event) s : state :=
  if touches_cart (handler s ev) then promote (s ⊲ handler s ev) else s ⊲ handler s ev.

(** States reached by any sequence of handler calls with valid arguments,
    rendered or not. *)
Inductive called : state → Prop :=
  | called_init : called init
  | called_step s ev s' : called s → valid_call ev → dispatch ev s = Some s' → called s'.

(** The design spec section 9 (design notes) recommends: each operation
    applies its updates and then runs the promotion check once,
    synchronously, instead of through an effect scheduled after the
    render. *)
Definition dispatch_sync (ev : event) s : state := promote (s ⊲ handler s ev).

(** ** Lemmas on runs *)

(** Every click on a rendered button is a valid call. *)
Lemma reachable_called s : reachable s → called s.
Proof. induction 1; econstructor; eauto using buttons_ok. Qed.

Lemma dispatch_after ev s : dispatch ev s = Some (after ev s).
Proof. apply dispatch_eq. Qed.

Lemma run_cons_button ev evs s :
  ev ∈ buttons s → run (ev :: evs) s = run evs (after ev s).
Proof. intros Hev. simpl. rewrite bool_decide_eq_true_2 by done. by rewrite dispatch_after. Qed.

Lemma run_cons_off ev evs s : ev ∉ buttons s → run (ev :: evs) s = None.
Proof. intros Hev. simpl. by rewrite bool_decide_eq_false_2. Qed.

Lemma run_app evs evs' s : run (evs ++ evs') s = run evs s ≫= run evs'.
Proof.
  revert s. induction evs as [|ev evs IH]; intros s; [done|].
  destruct (decide (ev ∈ buttons s)) as [Hev|Hev].
  - rewrite <- app_comm_cons, !run_cons_button by done. apply IH.
  - by rewrite <- app_comm_cons, !run_cons_off.
Qed.

Lemma product_button_rendered s p ev : p ∈ PRODUCTS → ev ∈ product_buttons p → ev ∈ buttons s.
Proof.
  intros Hp Hev. unfold buttons. apply elem_of_app. left.
  apply list_elem_of_In, in_flat_map. exists p. split; by apply list_elem_of_In.
Qed.

Lemma add_button_rendered s p : p ∈ PRODUCTS → AddToCart p ∈ buttons s.
Proof. intros Hp. apply (product_button_rendered s p); [done|]. simpl. set_solver. Qed.

Lemma app_inv_after s ev : app_inv s → ev ∈ buttons s → app_inv (after ev s).
Proof. intros Hi Hev. eapply app_inv_step; [done|done|apply dispatch_after]. Qed.

(** The ids of the non-gift lines, the lines with a "Remove" button. *)
Definition ngids (c : list item) : list Z := ids (List.filter not_gift c).

Lemma ngids_promote t : ngids (cart (promote t)) = ngids (cart t).
Proof.
  unfold ngids. destruct (promote_cases t) as [[_ ->]|[(_ & _ & ->)|(_ & _ & ->)]]; simpl.
  - done.
  - unfold addGift_update. by rewrite List.filter_app, app_nil_r.
  - unfold removeGift_update. by rewrite filter_idem.
Qed.

Lemma ngids_remove x c :
  ngids (removeFromCart_update x c) = List.filter (λ y, negb (Z.eqb y x)) (ngids c).
Proof.
  unfold ngids, removeFromCart_update. rewrite filter_comm.
  apply (ids_removeFromCart_update x (List.filter not_gift c)).
Qed.

Lemma ngids_map_same (f : item → item) c :
  (∀ it, id (f it) = id it) → ngids (map f c) = ngids c.
Proof.
  intros Hf. induction c as [|it c IH]; [done|]. unfold ngids, ids in *. simpl.
  assert (Hng : not_gift (f it) = not_gift it) by (unfold not_gift; by rewrite Hf).
  rewrite Hng. destruct (not_gift it); simpl; [rewrite Hf|]; by rewrite IH.
Qed.

Lemma elem_of_ngids x c : x ≠ id FREE_GIFT → x ∈ ngids c ↔ x ∈ ids c.
Proof.
  intros Hx. unfold ngids, ids. rewrite elem_of_map_filter, list_elem_of_In, in_map_iff.
  setoid_rewrite list_elem_of_In. split; [naive_solver|].
  intros (it & <- & Hit). exists it. split; [done|]. split; [by apply not_gift_true|done].
Qed.

Lemma ngids_addToCart_update (q : Z) p c :
  p ∈ PRODUCTS →
  ngids (addToCart_update q p c) =
    if bool_decide (id p ∈ ngids c) then ngids c else ngids c ++ [id p].
Proof.
  intros Hp. pose proof (PRODUCTS_not_gift p Hp) as Hng.
  destruct (addToCart_update_cases q p c) as [[Hin ->]|[Hnin ->]].
  - rewrite bool_decide_eq_true_2 by (by apply elem_of_ngids).
    apply ngids_map_same. intros it. by destruct (Z.eqb _ _).
  - rewrite bool_decide_eq_false_2 by (by rewrite elem_of_ngids).
    unfold ngids. rewrite List.filter_app, ids_app. simpl. by rewrite (not_gift_true (mkItem p q)).
Qed.

Lemma filter_neq_absent (x : Z) (l : list Z) :
  x ∉ l → List.filter (λ y, negb (Z.eqb y x)) l = l.
Proof.
  intros Hx. apply filter_all_true, Forall_forall. intros y Hy.
  apply negb_true_iff, Z.eqb_neq. intros ->. done.
Qed.

Lemma remove_button_rendered s x : x ∈ ngids (cart s) → RemoveFromCart x ∈ buttons s.
Proof.
  unfold ngids, ids. rewrite elem_of_map_filter. intros (it & Hit & Hng & ->).
  unfold buttons. apply elem_of_app. right. apply list_elem_of_In, in_flat_map.
  exists it. split; [by apply list_elem_of_In|]. unfold line_buttons. rewrite Hng. simpl. tauto.
Qed.

Lemma app_inv_subtotal_nonneg s : app_inv s → 0 ≤ subtotal (cart s).
Proof. intros ((_ & Hc) & _). by apply subtotal_nonneg. Qed.

Lemma gift_of_rule t : app_inv t → THRESHOLD ≤ subtotal (cart t) → gift_line ∈ cart t.
Proof.
  intros (Hwf & _ & Hrule & _) Ht. rewrite gift_line_in_iff, Hrule by done. by apply Z.leb_le.
Qed.

(** A cart without non-gift lines in a state satisfying the invariant is
    empty: its subtotal is 0, so the effect has removed the gift. *)
Lemma ngids_nil_empty s : app_inv s → ngids (cart s) = [] → cart s = [].
Proof.
  intros (Hwf & _ & Hrule & _) Hng. unfold ngids, ids in Hng. apply map_eq_nil in Hng.
  assert (Hsub : subtotal (cart s) = 0) by (by rewrite subtotal_spec, Hng).
  rewrite Hsub in Hrule. simpl in Hrule.
  rewrite <- Hng. symmetry. apply filter_all_true, Forall_forall. intros it Hit.
  unfold not_gift. apply negb_true_iff. apply hasGift_false in Hrule.
  apply Z.eqb_neq. intros E. apply Hrule. rewrite <- E. by apply elem_of_ids.
Qed.

Lemma remove_all_lines (l : list Z) s :
  app_inv s → ngids (cart s) = l →
  ∃ s', run (map RemoveFromCart l) s = Some s' ∧ cart s' = [].
Proof.
  revert s. induction l as [|x l IH]; intros s Hi Hl.
  - exists s. split; [done|]. by apply ngids_nil_empty.
  - assert (Hx : x ∈ ngids (cart s)) by (rewrite Hl; set_solver).
    cbn [map]. rewrite run_cons_button by (by apply remove_button_rendered).
    apply IH; [by apply app_inv_after, remove_button_rendered|].
    assert (Hnd : NoDup (x :: l)).
    { rewrite <- Hl. unfold ngids. apply NoDup_map_filter. apply Hi. }
    apply NoDup_cons in Hnd as [Hxl _].
    unfold after. simpl. unfold removeFromCart. rewrite (proj2 (Z.eqb_neq _ _)).
    + simpl. rewrite ngids_promote. simpl. rewrite ngids_remove, Hl. simpl.
      rewrite Z.eqb_refl. simpl. by apply filter_neq_absent.
    + intros ->. unfold ngids, ids in Hx. rewrite elem_of_map_filter in Hx.
      destruct Hx as (it & _ & Hng & Hid). unfold not_gift in Hng. zbool; done.
Qed.

(** ** Liveness *)

(** C17. From every reachable state the gift can still be earned: two
    clicks on "Add to Cart" for the laptop always put the gift line in
    the cart. *)
Theorem gift_earnable s :
  reachable s →
  ∃ s', run [AddToCart laptop; AddToCart laptop] s = Some s' ∧ gift_line ∈ cart s'.
Proof.
  intros Hr. app_inv_of Hr. rename H into Hi.
  assert (Hp : laptop ∈ PRODUCTS) by left.
  set (s1 := after (AddToCart laptop) s). set (s2 := after (AddToCart laptop) s1).
  assert (Hi1 : app_inv s1) by (by apply app_inv_after, add_button_rendered).
  assert (Hi2 : app_inv s2) by (by apply app_inv_after, add_button_rendered).
  exists s2. rewrite !run_cons_button by (by apply add_button_rendered). split; [done|].
  apply gift_of_rule; [done|].
  rewrite (dispatch_add_subtotal s1 laptop s2 Hi1 Hp (dispatch_after _ _)).
  rewrite (dispatch_add_subtotal s laptop s1 Hi Hp (dispatch_after _ _)).
  pose proof (app_inv_subtotal_nonneg s Hi).
  pose proof (pending_ge_1 _ (id laptop) (proj1 (proj2 Hi))).
  pose proof (pending_ge_1 _ (id laptop) (proj1 (proj2 Hi1))).
  change (price laptop) with 500. unfold THRESHOLD. lia.
Qed.

(** C18. From every reachable state the cart can be emptied: clicking
    "Remove" on each non-gift line, in order, leaves an empty cart (the
    effect removes the gift once the subtotal drops to 0). *)
Theorem cart_emptiable s :
  reachable s →
  ∃ s', run (map RemoveFromCart (ngids (cart s))) s = Some s' ∧ cart s' = [].
Proof. intros Hr. app_inv_of Hr. by apply remove_all_lines. Qed.

(** ** Order of the cart rows *)

(** C27. The product rows keep their order: in every reachable state, a
    click on a rendered button leaves the ids of the non-gift lines in the
    same order, except that "Add to Cart" appends a product that had no
    line and "Remove" drops its line; the gift line coming or going moves
    no product row. *)
Theorem click_keeps_order s ev s' :
  reachable s → ev ∈ buttons s → dispatch ev s = Some s' →
  ngids (cart s') =
    match ev with
    | AddToCart p => if bool_decide (id p ∈ ngids (cart s)) then ngids (cart s) else ngids (cart s) ++ [id p]
    | RemoveFromCart x => List.filter (λ y, negb (Z.eqb y x)) (ngids (cart s))
    | _ => ngids (cart s)
    end.
Proof.
  intros Hr Hev. rewrite dispatch_after. intros [= <-]. app_inv_of Hr.
  destruct H as (Hwf & _). pose proof (buttons_ok s ev Hev) as Hv. unfold after.
  destruct ev as [productId delta|p|productId delta|x]; simpl in Hv |- *.
  - done.
  - rewrite ngids_promote. simpl. by apply ngids_addToCart_update.
  - rewrite ngids_promote. simpl. rewrite updateCartQuantity_update_map.
    + apply ngids_map_same. intros it. by destruct (Z.eqb _ _).
    + by apply wf_cart_pos.
  - unfold removeFromCart. destruct (Z.eqb_spec x (id FREE_GIFT)) as [->|Hx]; [contradiction|].
    simpl. rewrite ngids_promote. apply ngids_remove.
Qed.

(** ** The synchronous design *)

(** C24. The redesign spec section 9 recommends is equivalent to the code:
    from every state satisfying the invariant, a handler call with any
    arguments, followed by React's commit and the effect loop, ends in the
    state the handler's updates and one synchronous promotion check give. *)
Theorem dispatch_sync_equiv ev s : app_inv s → dispatch ev s = Some (dispatch_sync ev s).
Proof.
  intros (_ & _ & Hrule & _). rewrite dispatch_eq. unfold dispatch_sync. f_equal.
  destruct (touches_cart (handler s ev)) eqn:Ht; [done|].
  unfold promote. rewrite (proj2 (effect_nil_iff _)); [done|].
  by rewrite commit_cart_untouched.
Qed.

(** ** Error paths *)

(** C19. Spec 4.2's contract is enough: every state reached by handler
    calls with valid argument shapes, whether the page renders them or
    not, satisfies the invariant of C1 (any delta, any catalog product,
    any id but the gift's, in any order). *)
Theorem called_app_inv s : called s → app_inv s.
Proof. induction 1; eauto using app_inv_init, app_inv_step_valid. Qed.

(** The state two laptops and the gift lead to when the handlers are
    called on the gift. *)
Definition corrupted_gift : state :=
  mkState [mkItem laptop 2; mkItem FREE_GIFT 2] {[1 := 2]} true.

(** Without the UI, the handlers do not protect the gift: calling
    [updateCartQuantity(FREE_GIFT.id, 1)] or [addToCart(FREE_GIFT)] on the
    scenario-1 state raises the gift line's quantity to 2, and the result
    breaks the invariant. Neither call has a valid argument shape. *)
Example unguarded_calls_corrupt_gift :
  reachable two_laptops ∧
  Forall (λ ev, ¬ valid_call ev ∧ dispatch ev two_laptops = Some corrupted_gift)
    [UpdateCartQuantity (id FREE_GIFT) 1; AddToCart FREE_GIFT] ∧
  ¬ app_inv corrupted_gift.
Proof.
  split; [exact two_laptops_reachable|]. split.
  - apply Forall_cons. split; [split|].
    + simpl. intros H. by apply H.
    + vm_compute. reflexivity.
    + apply Forall_singleton. split.
      * simpl. intros Hp. by apply PRODUCTS_not_gift in Hp.
      * vm_compute. reflexivity.
  - intros ((_ & Hc) & _). apply Forall_inv_tail, Forall_inv in Hc.
    destruct Hc as [Heq|[Hp _]]; [discriminate|]. by apply PRODUCTS_not_gift in Hp.
Qed.

(** ** The shape of the [quantities] object *)

Lemma quantities_after ev s :
  quantities (after ev s) =
    match ev with
    | QuantityChange productId delta => handleQuantityChange_update productId delta (quantities s)
    | _ => quantities s
    end.
Proof.
  unfold after. destruct ev as [|p|pid d|pid]; simpl; rewrite ?promote_quantities; try done.
  unfold removeFromCart. destruct (Z.eqb _ _); simpl; by rewrite ?promote_quantities.
Qed.

Lemma buttons_quantity_change s productId delta :
  QuantityChange productId delta ∈ buttons s →
  productId ∈ map id PRODUCTS ∧ (delta = 1 ∨ delta = -1).
Proof.
  unfold buttons. rewrite elem_of_app, !list_elem_of_In, !in_flat_map.
  intros [(p & Hp & Hev)|(it & _ & Hev)].
  - simpl in Hev. split; [|naive_solver].
    apply in_map_iff. exists p. naive_solver.
  - unfold line_buttons in Hev. destruct (not_gift it); simpl in Hev; naive_solver.
Qed.

(** C20. In every reachable state the [quantities] object has the shape
    the UI reads: its keys are catalog ids and its values integers at
    least 1, so [quantities[product.id] || 1] is never reached with 0. *)
Theorem reachable_quantities_shape s :
  reachable s → map_Forall (λ k v, k ∈ map id PRODUCTS ∧ 1 ≤ v) (quantities s).
Proof.
  induction 1 as [|s ev s' Hr IH Hev Hd]; [apply map_Forall_empty|].
  rewrite dispatch_after in Hd. injection Hd as <-. rewrite quantities_after.
  destruct ev as [productId delta| | |]; try done.
  destruct (buttons_quantity_change s productId delta Hev) as [Hid _].
  apply map_Forall_insert_2; [split; [done|lia]|done].
Qed.

(** ** Witnesses *)

Lemma gift_earnable_witness :
  reachable init ∧
  ∃ s', run [AddToCart laptop; AddToCart laptop] init = Some s' ∧ gift_line ∈ cart s'.
Proof. split; [constructor|]. apply (gift_earnable init). constructor. Defined.

Lemma cart_emptiable_witness :
  reachable two_laptops ∧
  ∃ s', run (map RemoveFromCart (ngids (cart two_laptops))) two_laptops = Some s' ∧ cart s' = [].
Proof. split; [apply two_laptops_reachable|]. apply (cart_emptiable two_laptops). apply two_laptops_reachable. Defined.

Lemma called_app_inv_witness : called two_laptops ∧ app_inv two_laptops.
Proof.
  split; [apply reachable_called, two_laptops_reachable|].
  apply (called_app_inv two_laptops). apply reachable_called, two_laptops_reachable.
Defined.

Lemma reachable_quantities_shape_witness :
  reachable laptop_pending_two ∧
  map_Forall (λ k v, k ∈ map id PRODUCTS ∧ 1 ≤ v) (quantities laptop_pending_two).
Proof.
  split; [apply laptop_pending_two_reachable|].
  apply (reachable_quantities_shape laptop_pending_two). apply laptop_pending_two_reachable.
Defined.

Lemma dispatch_sync_equiv_witness :
  app_inv two_laptops ∧
  dispatch (AddToCart headphones) two_laptops = Some (dispatch_sync (AddToCart headphones) two_laptops).
Proof.
  assert (Hr := two_laptops_reachable). app_inv_of Hr.
  split; [done|]. by apply (dispatch_sync_equiv (AddToCart headphones) two_laptops).
Defined.

Lemma click_keeps_order_witness :
  reachable two_laptops ∧ AddToCart smartphone ∈ buttons two_laptops ∧
  dispatch (AddToCart smartphone) two_laptops = Some (after (AddToCart smartphone) two_laptops) ∧
  ngids (cart (after (AddToCart smartphone) two_laptops)) =
    if bool_decide (id smartphone ∈ ngids (cart two_laptops)) then ngids (cart two_laptops)
    else ngids (cart two_laptops) ++ [id smartphone].
Proof.
  pose proof two_laptops_reachable as Hr.
  assert (Hev : AddToCart smartphone ∈ buttons two_laptops)
    by (apply add_button_rendered, list_elem_of_In; simpl; tauto).
  pose proof (dispatch_after (AddToCart smartphone) two_laptops) as Hd.
  split; [exact Hr|]. split; [exact Hev|]. split; [exact Hd|].
  apply (click_keeps_order two_laptops (AddToCart smartphone) _ Hr Hev Hd).
Defined.

End Runs.

Export Runs.
