(* ===== verification/Bounds.v ===== *)
(** Bounds.v: how large the numbers App.js computes can grow. A click
    raises a pending quantity by at most 1 and a cart line's quantity by
    at most the pending quantity, so after [n] clicks every pending
    quantity is at most [n + 1], every line quantity at most [(n + 1)^2]
    and the subtotal at most [1050 (n + 1)^2] (1050 is the sum of the
    catalog prices). JavaScript numbers are doubles, exact on integers up
    to [2^53]: below [2^20] clicks every quantity, line total and subtotal
    the app computes is such an integer, so the model's [Z] arithmetic is
    the arithmetic the browser does. *)

From S2P Require Import Prelude Catalog CartOps CartSpec Pending React Promotion App Runs.

Module Bounds.

Implicit Types (s : state) (c : list item) (n B : Z).

(** Every line of the cart has a quantity of at most [B]. *)
Definition qty_le B c : Prop := Forall (λ it : item, quantity it ≤ B) c.

(** The bounds after [n] clicks: pending quantities in [1, n + 1], line
    quantities at most [(n + 1)^2]. *)
Definition bounded n s : Prop :=
  map_Forall (λ _ v, 1 ≤ v ≤ n + 1) (quantities s) ∧ qty_le ((n + 1) * (n + 1)) (cart s).

(** ** The cart updaters and the line bound *)

Lemma qty_le_mono B B' c : B ≤ B' → qty_le B c → qty_le B' c.
Proof. intros HB Hc. eapply Forall_impl; [exact Hc|]. intros it; simpl; lia. Qed.

Lemma qty_le_filter B (f : item → bool) c : qty_le B c → qty_le B (List.filter f c).
Proof. apply Forall_filter_bool. Qed.

Lemma qty_le_addToCart_update B B' q p c :
  0 ≤ q → q ≤ B' → B + q ≤ B' → qty_le B c → qty_le B' (addToCart_update q p c).
Proof.
  intros Hq0 Hq HB Hc. unfold addToCart_update. destruct (List.find _ c).
  - apply Forall_fmap, (Forall_impl _ _ _ Hc). intros it Hit. simpl. case_match; simpl; lia.
  - apply Forall_app. split; [apply (qty_le_mono B); [lia|done]|]. by apply Forall_singleton.
Qed.

Lemma qty_le_updateCartQuantity_update B productId delta c :
  0 ≤ B → delta ≤ 1 → qty_le B c → qty_le (B + 1) (updateCartQuantity_update productId delta c).
Proof.
  intros HB Hd Hc. apply qty_le_filter, Forall_fmap, (Forall_impl _ _ _ Hc).
  intros it Hit. simpl. case_match; simpl; lia.
Qed.

Lemma qty_le_promote B s : 1 ≤ B → qty_le B (cart s) → qty_le B (cart (promote s)).
Proof.
  intros HB Hc. destruct (promote_cases s) as [[_ ->]|[(_ & _ & ->)|(_ & _ & ->)]]; simpl.
  - done.
  - apply Forall_app. split; [done|]. apply Forall_singleton. simpl. lia.
  - by apply qty_le_filter.
Qed.

(** ** The subtotal bound *)

Lemma abs_lookup_le B c x : 0 ≤ B → qty_le B c → default 0 (abs c !! x) ≤ B.
Proof.
  intros HB. induction 1 as [|it c Hit Hc IH]; simpl; [rewrite lookup_empty; simpl; lia|].
  destruct (not_gift it); [|done]. destruct (decide (id it = x)) as [->|Hne].
  - by rewrite lookup_insert_eq.
  - by rewrite lookup_insert_ne.
Qed.

(** A well-formed cart whose lines hold at most [B] units each is worth at
    most [B] times the sum of the catalog prices. *)
Lemma subtotal_le B c : 0 ≤ B → wf_cart c → qty_le B c → subtotal c ≤ 1050 * B.
Proof.
  intros HB Hwf Hc. rewrite subtotal_abs by done. unfold spec_subtotal.
  transitivity (sumZ (λ p, price p * B) PRODUCTS); [|simpl; lia].
  apply sumZ_le. intros p Hp. apply PRODUCTS_price_nonneg in Hp.
  pose proof (abs_lookup_le B c (id p) HB Hc). nia.
Qed.

(** ** One click *)

Lemma buttons_update_delta s productId delta :
  UpdateCartQuantity productId delta ∈ buttons s → delta = 1 ∨ delta = -1.
Proof.
  unfold buttons. rewrite elem_of_app, !list_elem_of_In, !in_flat_map.
  intros [(p & _ & Hev)|(it & _ & Hev)]; [simpl in Hev; naive_solver|].
  unfold line_buttons in Hev. destruct (not_gift it); simpl in Hev; naive_solver.
Qed.

Lemma pending_bound_mono n n' (m : gmap Z Z) :
  n ≤ n' → map_Forall (λ _ v, 1 ≤ v ≤ n + 1) m → map_Forall (λ _ v, 1 ≤ v ≤ n' + 1) m.
Proof. intros Hn Hm. apply (map_Forall_impl _ _ _ Hm). intros ? ? ?; lia. Qed.

Lemma pending_le n m productId :
  0 ≤ n → map_Forall (λ _ v, 1 ≤ v ≤ n + 1) m → 1 ≤ pending m productId ≤ n + 1.
Proof.
  intros Hn Hm. unfold pending. destruct (m !! productId) as [v|] eqn:E; simpl; [|lia].
  apply Hm in E. zbool; lia.
Qed.

Lemma bounded_after n s ev : 0 ≤ n → ev ∈ buttons s → bounded n s → bounded (n + 1) (after ev s).
Proof.
  intros Hn Hev [Hq Hc]. unfold after.
  assert (Hsq : (n + 1) * (n + 1) + (n + 1) ≤ (n + 1 + 1) * (n + 1 + 1)) by nia.
  destruct ev as [productId delta|p|productId delta|productId]; simpl.
  - destruct (buttons_quantity_change s productId delta Hev) as [_ Hd]. split; simpl.
    + apply map_Forall_insert_2; [|apply (pending_bound_mono n); [lia|done]].
      pose proof (pending_le n (quantities s) productId Hn Hq) as Hp. unfold pending in Hp. lia.
    + apply (qty_le_mono ((n + 1) * (n + 1))); [nia|done].
  - split; rewrite ?promote_quantities; simpl.
    + apply (pending_bound_mono n); [lia|done].
    + apply qty_le_promote; [nia|]. pose proof (pending_le n (quantities s) (id p) Hn Hq).
      apply (qty_le_addToCart_update ((n + 1) * (n + 1))); [lia|nia|lia|done].
  - destruct (buttons_update_delta s productId delta Hev) as [-> | ->];
      (split; rewrite ?promote_quantities; simpl;
       [apply (pending_bound_mono n); [lia|done]|]);
      (apply qty_le_promote; [nia|]); apply (qty_le_mono ((n + 1) * (n + 1) + 1)); try nia;
      apply qty_le_updateCartQuantity_update; try lia; done.
  - unfold removeFromCart. destruct (Z.eqb _ _); simpl.
    + split; [apply (pending_bound_mono n); [lia|done]|]. apply (qty_le_mono ((n + 1) * (n + 1))); [nia|done].
    + split; rewrite ?promote_quantities; simpl; [apply (pending_bound_mono n); [lia|done]|].
      apply qty_le_promote; [nia|]. apply qty_le_filter, (qty_le_mono ((n + 1) * (n + 1))); [nia|done].
Qed.

(** ** Runs *)

Lemma bounded_init : bounded 0 init.
Proof. split; [apply map_Forall_empty|constructor]. Qed.

Lemma run_bounded evs s s' n :
  0 ≤ n → bounded n s → run evs s = Some s' → bounded (n + Z.of_nat (length evs)) s'.
Proof.
  revert s n. induction evs as [|ev evs IH]; intros s n Hn Hb Hrun.
  - simpl in Hrun. simplify_eq. by rewrite Z.add_0_r.
  - destruct (decide (ev ∈ buttons s)) as [Hev|Hev]; [|by rewrite run_cons_off in Hrun].
    rewrite run_cons_button in Hrun by done.
    replace (n + Z.of_nat (length (ev :: evs))) with (n + 1 + Z.of_nat (length evs)) by (simpl; lia).
    apply (IH (after ev s)); [lia|by apply bounded_after|done].
Qed.

(** What the claims below start from: after a run of [n] clicks from the
    first render, the bounds at [n] and a well-formed cart. *)
Lemma run_init_bounded evs s :
  run evs init = Some s → bounded (Z.of_nat (length evs)) s ∧ wf_cart (cart s).
Proof.
  intros Hrun. split.
  - apply (run_bounded evs init s 0) in Hrun; [done|lia|apply bounded_init].
  - assert (Hr : reachable s) by exact (run_reachable _ _ _ reachable_init Hrun).
    app_inv_of Hr. by destruct H.
Qed.

Lemma line_total_le B (it : item) :
  line_ok it → quantity it ≤ B → 0 ≤ line_total it ≤ 500 * B.
Proof.
  unfold line_total. intros [->|[Hp Hq]] HB; [simpl in *; lia|].
  pose proof (PRODUCTS_price_pos _ Hp). pose proof (PRODUCTS_price_le _ Hp). nia.
Qed.

(** ** The bounds *)

(** C21. After a run of [n] clicks from the first render, every pending
    quantity is between 1 and [n + 1], every cart line holds at most
    [(n + 1)^2] units and the subtotal is at most [1050 (n + 1)^2]. *)
Theorem run_growth evs s :
  run evs init = Some s →
  map_Forall (λ _ v, 1 ≤ v ≤ Z.of_nat (length evs) + 1) (quantities s) ∧
  Forall (λ it : item, quantity it ≤ (Z.of_nat (length evs) + 1) ^ 2) (cart s) ∧
  subtotal (cart s) ≤ 1050 * (Z.of_nat (length evs) + 1) ^ 2.
Proof.
  intros Hrun. destruct (run_init_bounded evs s Hrun) as [[Hq Hc] Hwf].
  rewrite Z.pow_2_r. split; [done|]. split; [done|].
  apply subtotal_le; [nia|done|done].
Qed.

(** C22. Every number a run of fewer than [2^20] clicks makes the app
    compute is an integer below [2^53], where JavaScript's doubles are
    exact: the pending quantities, each line's quantity and line total,
    and the subtotal (every partial sum of its [reduce] lies between 0 and
    the subtotal, the terms being non-negative). *)
Theorem run_safe_integers evs s :
  run evs init = Some s → Z.of_nat (length evs) < 2 ^ 20 →
  map_Forall (λ _ v, 1 ≤ v < 2 ^ 53) (quantities s) ∧
  Forall (λ it : item, 0 ≤ quantity it < 2 ^ 53 ∧ 0 ≤ line_total it < 2 ^ 53) (cart s) ∧
  0 ≤ subtotal (cart s) < 2 ^ 53.
Proof.
  intros Hrun Hn. destruct (run_init_bounded evs s Hrun) as [[Hq Hc] Hwf].
  set (n := Z.of_nat (length evs)) in *.
  assert (HB : 0 ≤ (n + 1) * (n + 1) < 2 ^ 41) by nia.
  split; [|split].
  - apply (map_Forall_impl _ _ _ Hq). intros ? ? ?; lia.
  - destruct Hwf as [_ Hok]. apply Forall_forall.
    intros it Hit. pose proof (proj1 (Forall_forall _ _) Hok it Hit) as Hl.
    pose proof (proj1 (Forall_forall _ _) Hc it Hit) as Hle. simpl in Hle.
    pose proof (line_ok_price it Hl). pose proof (line_total_le _ it Hl Hle). lia.
  - pose proof (subtotal_le _ _ (proj1 HB) Hwf Hc).
    pose proof (subtotal_nonneg _ (proj2 Hwf)). lia.
Qed.

(** ** Witnesses *)

Lemma run_growth_witness :
  run [QuantityChange 1 1; AddToCart laptop] init = Some two_laptops ∧
  subtotal (cart two_laptops) ≤ 1050 * (Z.of_nat 2 + 1) ^ 2.
Proof.
  split; [exact scenario_1|]. apply (run_growth [QuantityChange 1 1; AddToCart laptop]).
  exact scenario_1.
Defined.

Lemma run_safe_integers_witness :
  run [QuantityChange 1 1; AddToCart laptop] init = Some two_laptops ∧
  0 ≤ subtotal (cart two_laptops) < 2 ^ 53.
Proof.
  split; [exact scenario_1|]. apply (run_safe_integers [QuantityChange 1 1; AddToCart laptop]).
  - exact scenario_1.
  - simpl. lia.
Defined.

End Bounds.

Export Bounds.
