(* ===== verification/Refinement.v ===== *)
(** Refinement.v: the running app refines an abstract cart machine. Its
    state is the cart as a map from product id to quantity (CartSpec.abs),
    the pending quantities and the gift flag; a click is a map operation
    followed by re-deciding the flag from the abstract subtotal. Every
    click on a rendered button of a reachable state is simulated by the
    abstract step of the same event. *)

From S2P Require Import Prelude Catalog CartOps CartSpec Pending React Promotion App.

Module Refinement.

Definition spec_state : Type := gmap Z Z * gmap Z Z * bool.

Definition abs_state (s : state) : spec_state := (abs (cart s), quantities s, giftAdded s).

(** The promotion rule on an abstract cart. *)
Definition spec_rule (m : gmap Z Z) : bool := THRESHOLD <=? spec_subtotal m.

Definition spec_dispatch (ev : event) (st : spec_state) : spec_state :=
  let '(m, q, g) := st in
  match ev with
  | QuantityChange productId delta => (m, handleQuantityChange_update productId delta q, g)
  | AddToCart p =>
      let m' := spec_add (pending q (id p)) p m in (m', q, spec_rule m')
  | UpdateCartQuantity productId delta =>
      let m' := spec_update productId delta m in (m', q, spec_rule m')
  | RemoveFromCart productId =>
      if Z.eqb productId (id FREE_GIFT) then (m, q, g)
      else let m' := spec_remove productId m in (m', q, spec_rule m')
  end.

Lemma abs_promote (s : state) : abs (cart (promote s)) = abs (cart s).
Proof.
  destruct (promote_cases s) as [[_ ->]|[(_ & _ & ->)|(_ & _ & ->)]]; simpl;
    auto using abs_addGift_update, abs_removeGift_update.
Qed.

(** A cart update keeping the promise of [GiftNeutral], followed by the
    effect, is the update on the abstraction with the flag re-decided. *)
Lemma abs_state_cart_update (f : list item → list item) `{!GiftNeutral f} (s : state) :
  app_inv s →
  abs_state (promote (s ⊲ [SetCart f])) = (abs (f (cart s)), quantities s, spec_rule (abs (f (cart s)))).
Proof.
  intros (Hwf & _ & _ & Hflag). set (t := s ⊲ [SetCart f]).
  assert (Hct : cart t = f (cart s)) by done.
  assert (Hf : giftAdded t = hasGift (cart t)) by (rewrite Hct; simpl; by rewrite neutral_hasGift).
  unfold abs_state. rewrite abs_promote, promote_quantities, Hct. f_equal.
  rewrite (promote_flag _ Hf), (proj1 (promote_consistent _ Hf)), promote_subtotal, Hct.
  unfold spec_rule. rewrite subtotal_abs; [done|]. by apply neutral_wf.
Qed.

(** C11. Refinement: from a reachable state, the state a click on a
    rendered button leads to is, abstracted, the abstract step of the same
    event: adding, changing or removing a quantity in the map, the gift
    flag re-decided from the abstract subtotal, the pending quantities
    updated as [handleQuantityChange] does. *)
Theorem dispatch_refines s ev s' :
  reachable s → ev ∈ buttons s → dispatch ev s = Some s' →
  abs_state s' = spec_dispatch ev (abs_state s).
Proof.
  intros Hr Hev%buttons_ok. app_inv_of Hr. pose proof H as (Hwf & Hq & _).
  rewrite dispatch_eq. intros [= <-].
  destruct ev as [productId delta|p|productId delta|productId]; simpl in Hev;
    cbn [handler handleQuantityChange addToCart updateCartQuantity touches_cart existsb orb].
  - done.
  - pose proof (addToCart_neutral _ p Hev (pending_ge_1 _ (id p) Hq)).
    unfold addToCart; cbv zeta.
    rewrite (abs_state_cart_update _ s H). by rewrite abs_addToCart_update.
  - pose proof (updateCartQuantity_neutral productId delta Hev).
    unfold updateCartQuantity.
    rewrite (abs_state_cart_update _ s H). by rewrite abs_updateCartQuantity_update.
  - assert (Hf : Z.eqb productId (id FREE_GIFT) = false) by (apply Z.eqb_neq; exact Hev).
    unfold removeFromCart. rewrite Hf. cbn [touches_cart existsb orb].
    pose proof (removeFromCart_neutral productId Hev).
    rewrite (abs_state_cart_update _ s H), abs_removeFromCart_update.
    unfold spec_dispatch, abs_state. by rewrite Hf.
Qed.

(** Witness of C11: adding a laptop from the state with pending 2. *)
Lemma dispatch_refines_witness :
  reachable laptop_pending_two ∧ AddToCart laptop ∈ buttons laptop_pending_two ∧
  dispatch (AddToCart laptop) laptop_pending_two = Some two_laptops ∧
  abs_state two_laptops = spec_dispatch (AddToCart laptop) (abs_state laptop_pending_two).
Proof.
  assert (Hb : AddToCart laptop ∈ buttons laptop_pending_two)
    by (apply (bool_decide_unpack _); vm_compute; reflexivity).
  assert (Hd : dispatch (AddToCart laptop) laptop_pending_two = Some two_laptops)
    by (vm_compute; reflexivity).
  split; [exact laptop_pending_two_reachable|]. split; [exact Hb|]. split; [exact Hd|].
  apply (dispatch_refines _ _ _ laptop_pending_two_reachable Hb Hd).
Defined.

End Refinement.

Export Refinement.
