(* ===== verification/View.v ===== *)
(** View.v: what App.js renders from its state, beyond the buttons (App.v),
    as data: the product cards (lines 79-103), the width of the progress
    bar (line 113), the threshold message (lines 117-121), the gift banner
    (lines 123-125), and the cart section (lines 127-163): the empty-cart
    message, or the rows (132-160) and the total (161). [render] is the
    whole page. The progress width is a JavaScript division, modelled
    exactly in [Q]. *)

From S2P Require Import Prelude Catalog CartOps Pending React Promotion App.
From Stdlib Require Import QArith Qring Qminmax Lqa.

Open Scope Z_scope.

Module View.

Implicit Types (s : state) (subtotal : Z).

(** Line 113: [Math.min((subtotal / THRESHOLD) * 100, 100)]. *)
Definition progress subtotal : Q :=
  Qmin ((inject_Z subtotal / inject_Z THRESHOLD) * 100) 100%Q.

(** Lines 118-120: the message under the progress bar. *)
Inductive message :=
  | Earned
  | AddMore (amount : Z).

Definition threshold_message subtotal : message :=
  if THRESHOLD <=? subtotal then Earned else AddMore (THRESHOLD - subtotal).

(** Line 123: [{giftAdded && (<div className="gift-msg">...)}]. *)
Definition gift_banner s : bool := giftAdded s.

(** Line 128: [cart.length === 0]. *)
Definition cart_empty s : bool := match cart s with [] => true | _ => false end.

(** Lines 133-157: a cart row shows the name, the price and the quantity,
    and the "-", "+" and "Remove" buttons unless it is the gift's. *)
Record row := mkRow { row_name : string; row_price : Z; row_quantity : Z; row_controls : bool }.

Definition rows s : list row :=
  map (λ it : item, mkRow (name it) (price it) (quantity it) (not_gift it)) (cart s).

(** Line 161: [Total: ₹{subtotal}]. *)
Definition total s : Z := subtotal (cart s).

(** Lines 79-103: a product card shows the name, the price and, between
    its "-" and "+" buttons, [quantities[product.id] || 1] (line 91). *)
Record card := mkCard { card_name : string; card_price : Z; card_pending : Z }.

Definition cards s : list card :=
  map (λ p, mkCard (name p) (price p) (pending (quantities s) (id p))) PRODUCTS.

(** Lines 127-163: [cart.length === 0 ? <p>Your cart is empty.</p> : ...],
    the rows followed by the total. *)
Inductive cart_view :=
  | EmptyCart
  | Lines (rs : list row) (t : Z).

Definition cart_section s : cart_view :=
  if cart_empty s then EmptyCart else Lines (rows s) (total s).

(** Lines 74-165: what the page shows, top to bottom. *)
Record page := mkPage {
  page_cards : list card;
  page_progress : Q;
  page_message : message;
  page_banner : bool;
  page_cart : cart_view
}.

Definition render s : page :=
  mkPage (cards s) (progress (total s)) (threshold_message (total s)) (gift_banner s)
    (cart_section s).

(** ** Lemmas *)

Lemma progress_scaled subtotal :
  ((inject_Z subtotal / inject_Z THRESHOLD) * 100 == inject_Z subtotal * (1#10))%Q.
Proof. unfold Qdiv, THRESHOLD. change (/ inject_Z 1000) with (1#1000). ring. Qed.

Lemma inject_Z_le (a b : Z) : a ≤ b ↔ (inject_Z a <= inject_Z b)%Q.
Proof. by rewrite Zle_Qle. Qed.

Lemma reachable_subtotal_nonneg s : reachable s → 0 ≤ subtotal (cart s).
Proof. intros Hr. app_inv_of Hr. destruct H as ((_ & Hc) & _). by apply subtotal_nonneg. Qed.

(** ** Properties of the rendered values *)

(** C13. In every reachable state the progress bar's width is between 0%
    and 100%. *)
Theorem progress_bounds s : reachable s → (0 <= progress (total s) <= 100)%Q.
Proof.
  intros Hr. unfold progress, total. rewrite progress_scaled.
  pose proof (reachable_subtotal_nonneg s Hr) as Hx. apply inject_Z_le in Hx.
  change (inject_Z 0) with 0%Q in Hx.
  destruct (Q.min_spec (inject_Z (subtotal (cart s)) * (1#10)) 100) as [[H1 H2]|[H1 H2]];
    rewrite H2; split; lra.
Qed.

(** C14. The progress bar is full exactly when the subtotal reaches the
    threshold. *)
Theorem progress_full_iff subtotal : (progress subtotal == 100)%Q ↔ THRESHOLD ≤ subtotal.
Proof.
  unfold progress. rewrite progress_scaled, Q.min_r_iff, inject_Z_le.
  change (inject_Z THRESHOLD) with 1000%Q. lra.
Qed.

(** C15. In every reachable state the page is consistent: the message
    says the gift is earned exactly when the gift line is in the cart, and
    the "Free gift added" banner is shown exactly then too. *)
Theorem view_consistent s :
  reachable s →
  (threshold_message (total s) = Earned ↔ gift_line ∈ cart s) ∧
  (gift_banner s = true ↔ gift_line ∈ cart s).
Proof.
  intros Hr. app_inv_of Hr. destruct H as (Hwf & _ & Hrule & Hflag).
  unfold gift_banner, threshold_message, total. rewrite gift_line_in_iff, Hflag, Hrule by done.
  split; [|done]. by destruct (THRESHOLD <=? subtotal (cart s)).
Qed.

(** C16. When the threshold is not reached, the amount the message asks
    for ("Add ₹{THRESHOLD - subtotal} more") is positive and at most
    THRESHOLD. *)
Theorem message_amount_bounds s amount :
  reachable s → threshold_message (total s) = AddMore amount → 0 < amount ≤ THRESHOLD.
Proof.
  intros Hr. pose proof (reachable_subtotal_nonneg s Hr).
  unfold threshold_message, total. zbool; intros [= <-]. lia.
Qed.

(** C25. In every reachable state the cart section adds up: when it lists
    rows, the total it shows is the sum of price x quantity over the rows
    shown (the code's filter of the gift changes nothing), and every row
    shown without buttons is the gift's, at 0 x 1. *)
Theorem cart_section_adds_up s rs t :
  reachable s → page_cart (render s) = Lines rs t →
  t = sumZ (λ r, row_price r * row_quantity r) rs ∧
  Forall (λ r, row_controls r = false → row_price r = 0 ∧ row_quantity r = 1) rs.
Proof.
  intros Hr. app_inv_of Hr. destruct H as ((_ & Hok) & _).
  unfold render, cart_section. simpl. destruct (cart_empty s); [discriminate|]. intros [= <- <-].
  unfold total, rows. rewrite sumZ_map, subtotal_all_lines by done. split; [reflexivity|].
  apply Forall_fmap. eapply Forall_impl; [exact Hok|]. intros it Hit Hc. simpl in Hc |- *.
  rewrite (line_ok_gift it Hit); [done|]. unfold is_gift. unfold not_gift in Hc.
  by destruct (Z.eqb _ _).
Qed.

(** C26. In every reachable state whose page shows "Your cart is empty.",
    the message asks for the full ₹1000, the progress bar is empty and
    the "Free gift added" banner is hidden: the effect has taken the gift
    back and reset [giftAdded]. *)
Theorem empty_cart_page s :
  reachable s → page_cart (render s) = EmptyCart →
  page_message (render s) = AddMore THRESHOLD ∧ (page_progress (render s) == 0)%Q ∧
  page_banner (render s) = false.
Proof.
  intros Hr. app_inv_of Hr. destruct H as (_ & _ & _ & Hflag).
  unfold render, cart_section, cart_empty. simpl. destruct (cart s) eqn:E; [|discriminate].
  intros _. unfold gift_banner, total. rewrite Hflag, E. split; [done|]. split; [|done].
  reflexivity.
Qed.

(** The spec's scenarios 1 and 2: 100% with two laptops, 30% with one
    smartphone. *)
Example progress_two_laptops : (progress (total two_laptops) == 100)%Q.
Proof. reflexivity. Qed.

Example progress_smartphone : (progress 300 == 30)%Q.
Proof. reflexivity. Qed.

(** ** Witnesses *)

Lemma progress_bounds_witness :
  reachable two_laptops ∧ (0 <= progress (total two_laptops) <= 100)%Q.
Proof.
  pose proof two_laptops_reachable as Hr. split; [exact Hr|]. apply (progress_bounds _ Hr).
Defined.

Lemma view_consistent_witness :
  reachable two_laptops ∧
  (threshold_message (total two_laptops) = Earned ↔ gift_line ∈ cart two_laptops) ∧
  (gift_banner two_laptops = true ↔ gift_line ∈ cart two_laptops).
Proof.
  pose proof two_laptops_reachable as Hr. split; [exact Hr|]. apply (view_consistent _ Hr).
Defined.

Lemma message_amount_bounds_witness :
  reachable one_laptop ∧ threshold_message (total one_laptop) = AddMore 500 ∧ 0 < 500 ≤ THRESHOLD.
Proof.
  pose proof one_laptop_reachable as Hr.
  assert (Hm : threshold_message (total one_laptop) = AddMore 500) by reflexivity.
  split; [exact Hr|]. split; [exact Hm|]. apply (message_amount_bounds _ _ Hr Hm).
Defined.

Lemma cart_section_adds_up_witness :
  reachable two_laptops ∧ page_cart (render two_laptops) = Lines (rows two_laptops) 1000 ∧
  1000 = sumZ (λ r, row_price r * row_quantity r) (rows two_laptops).
Proof.
  pose proof two_laptops_reachable as Hr.
  assert (Hp : page_cart (render two_laptops) = Lines (rows two_laptops) 1000) by reflexivity.
  split; [exact Hr|]. split; [exact Hp|]. apply (cart_section_adds_up _ _ _ Hr Hp).
Defined.

Lemma empty_cart_page_witness :
  reachable init ∧ page_cart (render init) = EmptyCart ∧ page_banner (render init) = false.
Proof.
  assert (Hp : page_cart (render init) = EmptyCart) by reflexivity.
  split; [constructor|]. split; [exact Hp|]. apply (empty_cart_page init); [constructor|exact Hp].
Defined.

End View.

Export View.
